(** * Level-Up dashboard: the per-account task supervisor of [main.py]

    A shallow embedding of the account registry, the handle registry, the
    HTTP handlers that drive them ([add_account], [remove_account], [start],
    [stop], [reset_today]) and the coroutine [account_loop], followed by the
    properties of the supervisor.

    Python objects are shared by reference: [ACCOUNTS] maps a uid to an
    [Account] object and a running [account_loop] keeps its own reference
    [acc] to that object.  The embedding therefore has an object store
    ([heap], addresses are positions) and [ACCOUNTS] maps a uid to an address.
    In the same way every [asyncio.Task] ever created lives in [pool] and
    [TASKS] maps a uid to a position of [pool].

    asyncio runs everything on one thread: a handler without [await] runs
    from its first line to its last without interruption, and a coroutine
    runs without interruption from one [await] to the next.  One transition
    of the embedding is one such uninterrupted piece of code. *)

From stdpp Require Import gmap strings list fin_maps sorting.
From Stdlib Require Import ZArith Lia Ascii.

Local Open Scope Z_scope.

(** ** Data model *)

(** [class Account(BaseModel)]; Python's [int] is unbounded, hence [Z]. *)
Record Account := mkAccount {
  uid : string;
  token : string;
  display_name : string;
  avatar_url : option string;
  online : bool;
  matchmaking : bool;
  current_level : Z;
  target_level : option Z;
  today_xp : Z;
  total_xp : Z;
  running : bool
}.

(** Attribute assignments [acc.f = v]. *)
Definition set_online (b : bool) (acc : Account) : Account :=
  mkAccount (uid acc) (token acc) (display_name acc) (avatar_url acc)
    b (matchmaking acc) (current_level acc) (target_level acc)
    (today_xp acc) (total_xp acc) (running acc).

Definition set_matchmaking (b : bool) (acc : Account) : Account :=
  mkAccount (uid acc) (token acc) (display_name acc) (avatar_url acc)
    (online acc) b (current_level acc) (target_level acc)
    (today_xp acc) (total_xp acc) (running acc).

Definition set_current_level (l : Z) (acc : Account) : Account :=
  mkAccount (uid acc) (token acc) (display_name acc) (avatar_url acc)
    (online acc) (matchmaking acc) l (target_level acc)
    (today_xp acc) (total_xp acc) (running acc).

Definition set_target_level (t : option Z) (acc : Account) : Account :=
  mkAccount (uid acc) (token acc) (display_name acc) (avatar_url acc)
    (online acc) (matchmaking acc) (current_level acc) t
    (today_xp acc) (total_xp acc) (running acc).

Definition set_today_xp (x : Z) (acc : Account) : Account :=
  mkAccount (uid acc) (token acc) (display_name acc) (avatar_url acc)
    (online acc) (matchmaking acc) (current_level acc) (target_level acc)
    x (total_xp acc) (running acc).

Definition set_total_xp (x : Z) (acc : Account) : Account :=
  mkAccount (uid acc) (token acc) (display_name acc) (avatar_url acc)
    (online acc) (matchmaking acc) (current_level acc) (target_level acc)
    (today_xp acc) x (running acc).

Definition set_running (b : bool) (acc : Account) : Account :=
  mkAccount (uid acc) (token acc) (display_name acc) (avatar_url acc)
    (online acc) (matchmaking acc) (current_level acc) (target_level acc)
    (today_xp acc) (total_xp acc) b.

Definition MAX_ACCOUNTS : nat := 20.

(** Defaults of the environment variables [XP_MIN] and [XP_MAX]. *)
Definition XP_MIN : Z := 50.
Definition XP_MAX : Z := 250.

(** [level_from_xp]: [max(1, xp // 1000 + 1)]; Python's [//] rounds towards
    minus infinity, as [Z.div] does for a positive divisor. *)
Definition level_from_xp (xp : Z) : Z := Z.max 1 (xp / 1000 + 1).

(** [mock_status] answers [random.randint(XP_MIN, XP_MAX)]: any integer of
    that closed interval. *)
Definition mock_status_gain (gained : Z) : bool :=
  (XP_MIN <=? gained) && (gained <=? XP_MAX).

(** ** Coroutines and tasks *)

(** The four [await]s of [account_loop], in source order: the call of
    [gw_start_match], [asyncio.sleep(XP_PERIOD_SECONDS)], the call of
    [gw_poll_result] and [asyncio.sleep(1)]. *)
Inductive Point := AtStartMatch | AtPeriodSleep | AtPollResult | AtYield.

(** State of the coroutine object of one call of [account_loop]:
    not yet scheduled, suspended at an [await] (with its local [acc], an
    address of the heap), returned, ended by an exception ([KeyError] of
    [ACCOUNTS[uid]]), or ended by [CancelledError]. *)
Inductive Coro :=
| Created
| Suspended (acc : nat) (p : Point)
| Returned
| Raised
| Cancelled.

(** An [asyncio.Task]: the argument of its coroutine, the coroutine, and
    whether [cancel()] was called and has not been delivered yet. *)
Record Task := mkTask {
  t_uid : string;
  t_coro : Coro;
  t_must_cancel : bool
}.

(** [Task.done()] *)
Definition done (t : Task) : bool :=
  match t_coro t with
  | Returned | Raised | Cancelled => true
  | Created | Suspended _ _ => false
  end.

(** [Task.cancel()]: a request; the task ends when the event loop next
    schedules it. *)
Definition cancel (t : Task) : Task :=
  if done t then t else mkTask (t_uid t) (t_coro t) true.

(** A loop that can still execute a line of [account_loop]. *)
Definition active (t : Task) : bool := negb (done t) && negb (t_must_cancel t).

(** ** The state of the process *)

Record World := mkWorld {
  heap : list Account;
  ACCOUNTS : gmap string nat;
  pool : list Task;
  TASKS : gmap string nat
}.

Definition empty_world : World := mkWorld [] ∅ [] ∅.

Definition with_heap (h : list Account) (w : World) : World :=
  mkWorld h (ACCOUNTS w) (pool w) (TASKS w).

Definition with_pool (p : list Task) (w : World) : World :=
  mkWorld (heap w) (ACCOUNTS w) p (TASKS w).

(** Mutation of the object at address [a]. *)
Definition mutate (a : nat) (f : Account → Account) (w : World) : World :=
  with_heap (alter f a (heap w)) w.

(** The handle registered for [uid], as [TASKS.get(uid)] returns it. *)
Definition handle (uid : string) (w : World) : option (nat * Task) :=
  match TASKS w !! uid with
  | Some tid => match pool w !! tid with
                | Some t => Some (tid, t)
                | None => None
                end
  | None => None
  end.

(** [uid in TASKS and not TASKS[uid].done()], also [t and not t.done()]
    for [t = TASKS.get(uid)]: a task object is truthy. *)
Definition live_handle (uid : string) (w : World) : option nat :=
  match handle uid w with
  | Some (tid, t) => if done t then None else Some tid
  | None => None
  end.

(** No handle, or a finished one. *)
Definition idle (uid : string) (w : World) : bool :=
  match live_handle uid w with Some _ => false | None => true end.

(** Number of loops of [uid] that can still run. *)
Definition count_active (u : string) (w : World) : nat :=
  length (filter (λ t, t_uid t = u ∧ active t = true) (pool w)).

(** ** HTTP handlers *)

(** A handler returns a JSON object [{"ok": True}], possibly with a [msg],
    or raises [HTTPException]. *)
Inductive Response :=
| RespOk (msg : option string)
| HTTPException (status_code : Z) (detail : string).

(** Python's [str] is a sequence of code points; a [string] here holds its
    UTF-8 bytes.  A byte [10xxxxxx] continues the code point begun by the
    bytes before it; every other byte begins one. *)
Definition is_continuation (c : ascii) : bool :=
  match c with Ascii _ _ _ _ _ _ b6 b7 => b7 && negb b6 end.

(** [len(s)]: the number of code points. *)
Definition chars (l : list ascii) : nat :=
  length (filter (λ c, is_continuation c = false) l).

(** The bytes of the last [n] code points of a sequence of bytes that is
    given back to front. *)
Fixpoint last_chars_rev (l : list ascii) (n : nat) : list ascii :=
  match l, n with
  | c :: l', S n' =>
      c :: last_chars_rev l' (if is_continuation c then n else n')
  | _, _ => []
  end.

(** [s[-n:]] *)
Definition last_chars (n : nat) (l : list ascii) : list ascii :=
  reverse (last_chars_rev (reverse l) n).

(** [uid[-4:]] *)
Definition last4 (s : string) : string :=
  String.string_of_list_ascii (last_chars 4 (String.list_ascii_of_string s)).

Definition new_account (uid token display_name : string) : Account :=
  mkAccount uid token
    (if String.eqb display_name "" then "User " +:+ last4 uid else display_name)
    None false false 1 None 0 0 false.

Definition add_account (uid token display_name : string) (w : World)
  : Response * World :=
  if bool_decide (MAX_ACCOUNTS ≤ size (ACCOUNTS w))%nat then
    (HTTPException 400 "Max 20 accounts", w)
  else if bool_decide (is_Some (ACCOUNTS w !! uid)) then
    (HTTPException 400 "Account already exists", w)
  else
    (RespOk None,
     mkWorld (heap w ++ [new_account uid token display_name])
             (<[uid := length (heap w)]> (ACCOUNTS w))
             (pool w) (TASKS w)).

Definition remove_account (uid : string) (w : World) : Response * World :=
  match ACCOUNTS w !! uid with
  | None => (HTTPException 404 "Not found", w)
  | Some a =>
      let w1 :=
        match live_handle uid w with
        | Some tid =>
            with_pool (alter cancel tid (pool w)) (mutate a (set_running false) w)
        | None => w
        end in
      (RespOk None,
       mkWorld (heap w1) (delete uid (ACCOUNTS w1)) (pool w1)
               (delete uid (TASKS w1)))
  end.

Definition start (uid : string) (target_level : option Z) (w : World)
  : Response * World :=
  match ACCOUNTS w !! uid with
  | None => (HTTPException 404 "Not found", w)
  | Some a =>
      let checked :=
        match target_level with
        | Some t =>
            if t <? 1 then None
            else Some (mutate a (set_target_level (Some t)) w)
        | None => Some w
        end in
      match checked with
      | None => (HTTPException 400 "Invalid target level", w)
      | Some w1 =>
          match live_handle uid w1 with
          | Some _ => (RespOk (Some "Already running"), w1)
          | None =>
              let w2 := mutate a (set_running true) w1 in
              (RespOk None,
               mkWorld (heap w2) (ACCOUNTS w2)
                       (pool w2 ++ [mkTask uid Created false])
                       (<[uid := length (pool w2)]> (TASKS w2)))
          end
      end
  end.

Definition stop (uid : string) (w : World) : Response * World :=
  match ACCOUNTS w !! uid with
  | None => (HTTPException 404 "Not found", w)
  | Some a =>
      let w1 := mutate a (set_running false) w in
      (RespOk None,
       match live_handle uid w1 with
       | Some tid => with_pool (alter cancel tid (pool w1)) w1
       | None => w1
       end)
  end.

Definition reset_today (uid : string) (w : World) : Response * World :=
  match ACCOUNTS w !! uid with
  | None => (HTTPException 404 "Not found", w)
  | Some a => (RespOk None, mutate a (set_today_xp 0) w)
  end.

(** ** [account_loop], one piece between two [await]s at a time *)

(** The two statements after the [while]. *)
Definition after_loop (acc : Account) : Account :=
  set_online true (set_matchmaking false acc).

(** The test of the [while] and the body up to the first [await]. *)
Definition loop_head (a : nat) (acc : Account) : Account * Coro :=
  if running acc then (set_matchmaking true acc, Suspended a AtStartMatch)
  else (after_loop acc, Returned).

(** From the entry of the coroutine, after [acc = ACCOUNTS[uid]]. *)
Definition on_begin (a : nat) (acc : Account) : Account * Coro :=
  loop_head a (set_running true (set_online true acc)).

(** [gw_start_match] came back: normally ([ok]), or with an exception that
    [except Exception] catches. *)
Definition on_start_reply (ok : bool) (a : nat) (acc : Account)
  : Account * Coro :=
  if ok then (acc, Suspended a AtPeriodSleep)
  else (after_loop (set_running false (set_matchmaking false acc)), Returned).

(** The long sleep is over: [gw_poll_result] is called. *)
Definition on_period_elapsed (a : nat) (acc : Account) : Account * Coro :=
  (acc, Suspended a AtPollResult).

(** [gw_poll_result] came back: [Some g] when
    [int(res.get("gained_xp", 0))] evaluated to [g], [None] when the call or
    the conversion raised an exception, in which case [gained = 0]. *)
Definition gained_of (res : option Z) : Z :=
  match res with Some g => g | None => 0 end.

(** The three assignments that book [gained]. *)
Definition credit (gained : Z) (acc : Account) : Account :=
  let acc := set_today_xp (today_xp acc + gained) acc in
  let acc := set_total_xp (total_xp acc + gained) acc in
  set_current_level (level_from_xp (total_xp acc)) acc.

Definition on_poll_reply (res : option Z) (a : nat) (acc : Account)
  : Account * Coro :=
  let acc := credit (gained_of res) acc in
  let acc := set_matchmaking false acc in
  match target_level acc with
  | Some t =>
      if t <=? current_level acc
      then (after_loop (set_running false acc), Returned)
      else (acc, Suspended a AtYield)
  | None => (acc, Suspended a AtYield)
  end.

(** What the event loop hands to a task when it schedules it. *)
Inductive Wake :=
| Begin
| StartReplied (ok : bool)
| TimerFired
| PollReplied (res : option Z).

Definition set_coro (c : Coro) (t : Task) : Task :=
  mkTask (t_uid t) c (t_must_cancel t).

(** Runs the piece [seg] of task [tid] on the object at [a]. *)
Definition commit (tid a : nat) (seg : Account → Account * Coro) (w : World)
  : World :=
  match heap w !! a with
  | Some acc =>
      let '(acc', c) := seg acc in
      mkWorld (<[a := acc']> (heap w)) (ACCOUNTS w)
              (alter (set_coro c) tid (pool w)) (TASKS w)
  | None => w
  end.

(** One scheduling of task [tid].  A finished task is never scheduled.  A
    task with a pending cancellation gets [CancelledError] raised at its
    [await] (or before its first line): [CancelledError] derives from
    [BaseException], no [except Exception] of [account_loop] catches it and
    there is no [finally], so the coroutine ends there and no further line
    of it runs.  A wake-up that does not fit the [await] the task is
    suspended at does not happen. *)
Definition resume (tid : nat) (wk : Wake) (w : World) : World :=
  match pool w !! tid with
  | None => w
  | Some t =>
      if done t then w
      else if t_must_cancel t then
        with_pool (alter (set_coro Cancelled) tid (pool w)) w
      else
        match t_coro t, wk with
        | Created, Begin =>
            match ACCOUNTS w !! t_uid t with
            | Some a => commit tid a (on_begin a) w
            | None => with_pool (alter (set_coro Raised) tid (pool w)) w
            end
        | Suspended a AtStartMatch, StartReplied ok =>
            commit tid a (on_start_reply ok a) w
        | Suspended a AtPeriodSleep, TimerFired =>
            commit tid a (on_period_elapsed a) w
        | Suspended a AtPollResult, PollReplied res =>
            commit tid a (on_poll_reply res a) w
        | Suspended a AtYield, TimerFired =>
            commit tid a (loop_head a) w
        | _, _ => w
        end
  end.

(** ** Observation *)

(** [ACCOUNTS.values()]: a Python [dict] iterates in insertion order.  A
    uid is always inserted with a freshly allocated object, whose address
    is larger than every address allocated before, so the insertion order
    of the registry is the order of the addresses. *)
Definition account_addresses (w : World) : list nat :=
  merge_sort (≤)%nat ((map_to_list (ACCOUNTS w)).*2).

(** [list_accounts]: the snapshots [a.dict()] of the registered accounts,
    in the order of the registry. *)
Definition list_accounts (w : World) : list Account :=
  omap (λ a, heap w !! a) (account_addresses w).

(** ** Runs of the process *)

Inductive Event :=
| CallAdd (uid token display_name : string)
| CallRemove (uid : string)
| CallStart (uid : string) (target_level : option Z)
| CallStop (uid : string)
| CallResetToday (uid : string)
| Resume (tid : nat) (wk : Wake).

Definition step (e : Event) (w : World) : World :=
  match e with
  | CallAdd u tk dn => (add_account u tk dn w).2
  | CallRemove u => (remove_account u w).2
  | CallStart u tl => (start u tl w).2
  | CallStop u => (stop u w).2
  | CallResetToday u => (reset_today u w).2
  | Resume tid wk => resume tid wk w
  end.

Fixpoint exec (tr : list Event) (w : World) : World :=
  match tr with
  | [] => w
  | e :: tr => exec tr (step e w)
  end.

(** The account registered under [uid]. *)
Definition account (uid : string) (w : World) : option Account :=
  match ACCOUNTS w !! uid with
  | Some a => heap w !! a
  | None => None
  end.

(** A gateway that never subtracts score: every poll answer of the run is
    non-negative. *)
Definition gain_nonneg (e : Event) : Prop :=
  match e with
  | Resume _ (PollReplied (Some g)) => 0 ≤ g
  | _ => True
  end.

(** ** Tests and abbreviations *)

(** A target that [start] accepts: absent, or at least 1. *)
Definition target_ok (tl : option Z) : Prop :=
  match tl with Some t => 1 ≤ t | None => True end.

(** The assignment [acc.target_level = t] of [start], when a target is
    given. *)
Definition retarget (a : nat) (tl : option Z) (w : World) : World :=
  match tl with
  | Some t => mutate a (set_target_level (Some t)) w
  | None => w
  end.

(** The target test at the end of a cycle. *)
Definition target_met (acc : Account) : bool :=
  match target_level acc with
  | Some t => t <=? current_level acc
  | None => false
  end.

(** A cancellation of the handle of [uid] was requested and has not been
    delivered yet. *)
Definition cancel_pending (uid : string) (w : World) : bool :=
  match handle uid w with
  | Some (_, t) => negb (done t) && t_must_cancel t
  | None => false
  end.

(** The level is the one derived from the score. *)
Definition level_ok (acc : Account) : Prop :=
  current_level acc = level_from_xp (total_xp acc).

Definition xp_nonneg (acc : Account) : Prop :=
  0 ≤ today_xp acc ∧ 0 ≤ total_xp acc.

Definition is_reset (e : Event) : Prop :=
  match e with CallResetToday _ => True | _ => False end.

(** ** The ways [start] and a scheduling can go *)

(** The four ways [start] can end. *)
Inductive start_outcome (u : string) (tl : option Z) (w : World)
  : Response * World → Prop :=
| start_not_found :
    ACCOUNTS w !! u = None →
    start_outcome u tl w (HTTPException 404 "Not found", w)
| start_invalid a t :
    ACCOUNTS w !! u = Some a → tl = Some t → t < 1 →
    start_outcome u tl w (HTTPException 400 "Invalid target level", w)
| start_already a tid :
    ACCOUNTS w !! u = Some a → target_ok tl → live_handle u w = Some tid →
    start_outcome u tl w (RespOk (Some "Already running"), retarget a tl w)
| start_spawned a :
    ACCOUNTS w !! u = Some a → target_ok tl → live_handle u w = None →
    start_outcome u tl w
      (RespOk None,
       mkWorld (alter (set_running true) a (heap (retarget a tl w)))
               (ACCOUNTS w)
               (pool w ++ [mkTask u Created false])
               (<[u := length (pool w)]> (TASKS w))).

(** [runs w t wk a seg]: task [t], woken with [wk], runs the piece [seg] of
    [account_loop] on the object at [a]. *)
Inductive runs (w : World) (t : Task) : Wake → nat → (Account → Account * Coro) → Prop :=
| runs_begin a :
    t_coro t = Created → ACCOUNTS w !! t_uid t = Some a →
    runs w t Begin a (on_begin a)
| runs_start_reply a ok :
    t_coro t = Suspended a AtStartMatch →
    runs w t (StartReplied ok) a (on_start_reply ok a)
| runs_period_elapsed a :
    t_coro t = Suspended a AtPeriodSleep →
    runs w t TimerFired a (on_period_elapsed a)
| runs_poll_reply a res :
    t_coro t = Suspended a AtPollResult →
    runs w t (PollReplied res) a (on_poll_reply res a)
| runs_yielded a :
    t_coro t = Suspended a AtYield →
    runs w t TimerFired a (loop_head a).

(** The ways one scheduling can go; [resume_nothing] covers what leaves
    the process as it is. *)
Inductive resume_outcome (tid : nat) (wk : Wake) (w : World) : World → Prop :=
| resume_nothing :
    resume_outcome tid wk w w
| resume_cancelled t :
    pool w !! tid = Some t → done t = false → t_must_cancel t = true →
    resume_outcome tid wk w
      (with_pool (alter (set_coro Cancelled) tid (pool w)) w)
| resume_key_error t :
    pool w !! tid = Some t → t_coro t = Created → t_must_cancel t = false →
    ACCOUNTS w !! t_uid t = None →
    resume_outcome tid wk w
      (with_pool (alter (set_coro Raised) tid (pool w)) w)
| resume_ran t a acc seg :
    pool w !! tid = Some t → active t = true → heap w !! a = Some acc →
    runs w t wk a seg →
    resume_outcome tid wk w
      (mkWorld (<[a := (seg acc).1]> (heap w)) (ACCOUNTS w)
               (alter (set_coro (seg acc).2) tid (pool w)) (TASKS w)).

(** ** Invariants *)

(** Every object of [h] is still there in [h'], related by [R] to what it
    was. *)
Definition fwd (R : Account → Account → Prop) (h h' : list Account) : Prop :=
  ∀ b acc, h !! b = Some acc → ∃ acc', h' !! b = Some acc' ∧ R acc acc'.

(** Every object of the heap satisfies [P]. *)
Definition heap_all (P : Account → Prop) (w : World) : Prop :=
  ∀ a acc, heap w !! a = Some acc → P acc.

(** A registered uid leads to an object that carries that uid. *)
Definition inv_accounts (w : World) : Prop :=
  ∀ u a, ACCOUNTS w !! u = Some a →
         ∃ acc, heap w !! a = Some acc ∧ uid acc = u.

(** Every registered handle is a task of the pool, created for that uid. *)
Definition inv_tasks (w : World) : Prop :=
  ∀ u tid, TASKS w !! u = Some tid →
           ∃ t, pool w !! tid = Some t ∧ t_uid t = u.

(** A loop that can still run is the one registered for its uid. *)
Definition inv_registered (w : World) : Prop :=
  ∀ tid t, pool w !! tid = Some t → active t = true →
           TASKS w !! t_uid t = Some tid.

(** A loop that can still run and is suspended at an [await] holds the
    object registered for its uid, and that object has [running] set. *)
Definition inv_suspended (w : World) : Prop :=
  ∀ tid t a p, pool w !! tid = Some t → active t = true →
               t_coro t = Suspended a p →
               ACCOUNTS w !! t_uid t = Some a
               ∧ ∃ acc, heap w !! a = Some acc ∧ running acc = true.

(** The invariants together, for every run from the empty process. *)
Record wf (w : World) : Prop := mk_wf {
  wf_accounts : inv_accounts w;
  wf_tasks : inv_tasks w;
  wf_registered : inv_registered w;
  wf_suspended : inv_suspended w
}.

(** The reading of C3 in the words of the specification: a handle that is
    in the map belongs to a loop that has not exited. *)
Definition handle_removed_on_exit : Prop :=
  ∀ tr u tid t,
    TASKS (exec tr empty_world) !! u = Some tid →
    pool (exec tr empty_world) !! tid = Some t →
    done t = false.

(** The reading of C1 in the words of the specification, for a way
    [count] of counting the active loops of a uid: never more than one, and
    exactly one after two successful calls of [start] in succession. *)
Definition count_unfinished (u : string) (w : World) : nat :=
  length (filter (λ t, t_uid t = u ∧ done t = false) (pool w)).

Definition one_loop_claim (count : string → World → nat) : Prop :=
  (∀ tr u, (count u (exec tr empty_world) ≤ 1)%nat)
  ∧ (∀ tr u tl1 tl2 m1 m2 w1 w2,
       start u tl1 (exec tr empty_world) = (RespOk m1, w1) →
       start u tl2 w1 = (RespOk m2, w2) →
       count u w2 = 1%nat).

(** A sequence of bytes that begins at the start of a code point, as every
    UTF-8 encoding does. *)
Definition well_started (l : list ascii) : Prop :=
  ∀ c, head l = Some c → is_continuation c = false.

(** ** Sample runs *)

(** One full cycle of task 0 with gain [g]. *)
Definition demo_cycle (g : Z) : list Event :=
  [ Resume 0 Begin; Resume 0 (StartReplied true); Resume 0 TimerFired;
    Resume 0 (PollReplied (Some g)) ].

(** Account ["A"] with target 2 and a gain of 1000. *)
Definition demo_A : World :=
  exec (CallAdd "A" "tokA" "" :: CallStart "A" (Some 2) :: demo_cycle 1000)
       empty_world.

(** [stop] while the loop sleeps between submission and poll. *)
Definition stopped_while_waiting : World :=
  exec [ CallAdd "A" "tokA" ""; CallStart "A" None;
         Resume 0 Begin; Resume 0 (StartReplied true);
         CallStop "A"; Resume 0 TimerFired ]
       empty_world.

(** A run in which the submission of account ["B"] fails. *)
Definition submitting_B : World :=
  exec [CallAdd "B" "tokB" ""; CallStart "B" None; Resume 0 Begin] empty_world.

(** A run in which account ["C"] waits for the answer of its poll. *)
Definition polling_C : World :=
  exec [ CallAdd "C" "tokC" ""; CallStart "C" None; Resume 0 Begin;
         Resume 0 (StartReplied true); Resume 0 TimerFired ]
       empty_world.

(** A run in which account ["A"], with target 2, waits for the answer of
    its poll. *)
Definition polling_A : list Event :=
  [ CallAdd "A" "tokA" ""; CallStart "A" (Some 2); Resume 0 Begin;
    Resume 0 (StartReplied true); Resume 0 TimerFired ].

(** Account ["A"] polls with target 5; a second [start] lowers the target
    to 1 before the answer arrives. *)
Definition retargeted_A (again : list Event) : World :=
  exec ([ CallAdd "A" "tokA" ""; CallStart "A" (Some 5); Resume 0 Begin;
          Resume 0 (StartReplied true); Resume 0 TimerFired ]
        ++ again ++ [Resume 0 (PollReplied (Some 100))])
       empty_world.

(** ** Further invariants *)

(** A handle is registered only for a uid that has an account. *)
Definition inv_handles_known (w : World) : Prop :=
  ∀ u tid, TASKS w !! u = Some tid → is_Some (ACCOUNTS w !! u).

(** A loop that has not been scheduled yet belongs to a registered account
    whose [running] is set. *)
Definition inv_created (w : World) : Prop :=
  ∀ tid t, pool w !! tid = Some t → active t = true → t_coro t = Created →
           ∃ a acc, ACCOUNTS w !! t_uid t = Some a
                    ∧ heap w !! a = Some acc ∧ running acc = true.

(** [running] is set only while a loop of the account can still run. *)
Definition inv_running (w : World) : Prop :=
  ∀ u a acc, ACCOUNTS w !! u = Some a → heap w !! a = Some acc →
             running acc = true →
             ∃ tid t, TASKS w !! u = Some tid ∧ pool w !! tid = Some t
                      ∧ active t = true.

(** All invariants of the supervisor. *)
Record wf_all (w : World) : Prop := mk_wf_all {
  wfa_wf : wf w;
  wfa_handles_known : inv_handles_known w;
  wfa_created : inv_created w;
  wfa_running : inv_running w
}.

(** The uid an event is about: the argument of a request, or the uid of
    the scheduled task. *)
Definition event_uid (e : Event) (w : World) : option string :=
  match e with
  | CallAdd u _ _ | CallRemove u | CallStart u _ | CallStop u
  | CallResetToday u => Some u
  | Resume tid _ => t_uid <$> pool w !! tid
  end.

(** No uid is registered with the object at [a]. *)
Definition unregistered (a : nat) (w : World) : Prop :=
  ∀ u, ACCOUNTS w !! u ≠ Some a.

(** Account ["C"] is added and started; its loop has not been scheduled. *)
Definition polling_C_start : list Event :=
  [CallAdd "C" "tokC" ""; CallStart "C" None].

(** The events of one undisturbed cycle of task [tid] in which the
    submission succeeds and the poll answers [g]: answer of the submission,
    end of the long sleep, answer of the poll, end of the short sleep. *)
Definition cycle (tid : nat) (g : Z) : list Event :=
  [ Resume tid (StartReplied true); Resume tid TimerFired;
    Resume tid (PollReplied (Some g)); Resume tid TimerFired ].

(** One such cycle per gain of [gs]. *)
Fixpoint cycles (tid : nat) (gs : list Z) : list Event :=
  match gs with
  | [] => []
  | g :: gs => cycle tid g ++ cycles tid gs
  end.

(** * Basic facts *)

Example demo_A_account :
  account "A" demo_A
  = Some (mkAccount "A" "tokA" "User A" None true false 2 (Some 2) 1000 1000 false).
Proof. vm_compute. reflexivity. Qed.

(** ** The level function *)

Lemma level_from_xp_ge_1 xp : 1 ≤ level_from_xp xp.
Proof. unfold level_from_xp. lia. Qed.

Lemma level_from_xp_mono x y : x ≤ y → level_from_xp x ≤ level_from_xp y.
Proof.
  intros Hxy. unfold level_from_xp.
  assert (x / 1000 ≤ y / 1000) by (apply Z.div_le_mono; lia). lia.
Qed.

Lemma level_from_xp_nonneg xp : 0 ≤ xp → level_from_xp xp = xp / 1000 + 1.
Proof.
  intros Hxp. unfold level_from_xp.
  assert (0 ≤ xp / 1000) by (apply Z.div_pos; lia). lia.
Qed.

(** ** Lists as stores *)

Section Stores.
Context {A : Type}.
Implicit Types (l : list A) (f : A → A).

Lemma alter_lookup_Some f l i j x :
  l !! j = Some x →
  alter f i l !! j = Some (if decide (i = j) then f x else x).
Proof.
  intros Hj. rewrite list_lookup_alter.
  destruct (decide (i = j)) as [->|]; [by rewrite Hj|done].
Qed.

Lemma alter_lookup_inv f l i j y :
  alter f i l !! j = Some y →
  ∃ x, l !! j = Some x ∧ y = (if decide (i = j) then f x else x).
Proof.
  rewrite list_lookup_alter.
  destruct (decide (i = j)) as [->|]; [|by eauto].
  destruct (l !! j) as [x|]; simpl; [|done]. intros [= <-]. eauto.
Qed.

Lemma insert_lookup_Some l i j x y :
  l !! j = Some x →
  <[i:=y]> l !! j = Some (if decide (i = j) then y else x).
Proof.
  intros Hj. destruct (decide (i = j)) as [->|].
  - apply list_lookup_insert_eq. by eapply lookup_lt_Some.
  - by rewrite list_lookup_insert_ne.
Qed.

Lemma insert_lookup_inv l i j y z :
  <[i:=y]> l !! j = Some z →
  ∃ x, l !! j = Some x ∧ z = (if decide (i = j) then y else x).
Proof.
  intros Hz.
  assert (is_Some (l !! j)) as [x Hx].
  { apply lookup_lt_is_Some. apply lookup_lt_Some in Hz.
    by rewrite length_insert in Hz. }
  exists x. split; [done|].
  rewrite (insert_lookup_Some _ _ _ _ _ Hx) in Hz. congruence.
Qed.
End Stores.

(** ** How one transition changes the objects of the heap

    [R] is a relation between the old and the new value of an object that
    every assignment of the program respects; [adm] restricts the events
    considered.  Objects are never freed, so every address stays valid. *)

Section HeapRelation.
Variable R : Account → Account → Prop.
Variable adm : Event → Prop.

Hypothesis R_refl : ∀ acc, R acc acc.
Hypothesis R_trans : ∀ x y z, R x y → R y z → R x z.
Hypothesis R_online : ∀ acc, R acc (set_online true acc).
Hypothesis R_matchmaking : ∀ b acc, R acc (set_matchmaking b acc).
Hypothesis R_running : ∀ b acc, R acc (set_running b acc).
Hypothesis R_target :
  ∀ t acc, 1 ≤ t → R acc (set_target_level (Some t) acc).
Hypothesis R_reset :
  ∀ u acc, adm (CallResetToday u) → R acc (set_today_xp 0 acc).
Hypothesis R_credit :
  ∀ tid res acc, adm (Resume tid (PollReplied res)) →
                 R acc (credit (gained_of res) acc).

Lemma fwd_refl h : fwd R h h.
Proof. intros b acc Hb. eauto. Qed.

Lemma fwd_trans h1 h2 h3 : fwd R h1 h2 → fwd R h2 h3 → fwd R h1 h3.
Proof.
  intros H12 H23 b acc Hb.
  destruct (H12 _ _ Hb) as (acc2 & Hb2 & HR2).
  destruct (H23 _ _ Hb2) as (acc3 & Hb3 & HR3). eauto.
Qed.

Lemma fwd_alter f a h : (∀ acc, R acc (f acc)) → fwd R h (alter f a h).
Proof.
  intros Hf b acc Hb. eexists. split; [by apply alter_lookup_Some|].
  case_decide; auto.
Qed.

Lemma fwd_insert a x y h : h !! a = Some x → R x y → fwd R h (<[a:=y]> h).
Proof.
  intros Ha Hxy b acc Hb. eexists. split; [by apply insert_lookup_Some|].
  case_decide; simplify_eq; auto.
Qed.

Lemma fwd_app h x : fwd R h (h ++ [x]).
Proof. intros b acc Hb. eauto using lookup_app_l_Some. Qed.

Lemma R_after_loop acc : R acc (after_loop acc).
Proof. unfold after_loop. eauto. Qed.

Lemma R_loop_head a acc : R acc (loop_head a acc).1.
Proof.
  unfold loop_head. destruct (running acc); simpl; auto using R_after_loop.
Qed.

Lemma R_on_begin a acc : R acc (on_begin a acc).1.
Proof. unfold on_begin. eauto using R_loop_head. Qed.

Lemma R_on_start_reply ok a acc : R acc (on_start_reply ok a acc).1.
Proof.
  unfold on_start_reply. destruct ok; simpl; eauto using R_after_loop.
Qed.

Lemma R_on_poll_reply tid res a acc :
  adm (Resume tid (PollReplied res)) → R acc (on_poll_reply res a acc).1.
Proof.
  intros Hadm. unfold on_poll_reply.
  assert (R acc (set_matchmaking false (credit (gained_of res) acc)))
    as Hm by eauto.
  repeat case_match; simpl; eauto using R_after_loop.
Qed.

Lemma fwd_commit tid a seg w :
  (∀ acc, R acc (seg acc).1) → fwd R (heap w) (heap (commit tid a seg w)).
Proof.
  intros Hseg. unfold commit.
  destruct (heap w !! a) as [acc|] eqn:Ha; [|apply fwd_refl].
  specialize (Hseg acc). destruct (seg acc) as [acc' c]. simpl in *.
  by eapply fwd_insert.
Qed.

Lemma fwd_resume tid wk w :
  adm (Resume tid wk) → fwd R (heap w) (heap (resume tid wk w)).
Proof.
  intros Hadm. unfold resume.
  repeat case_match; simpl; try apply fwd_refl; apply fwd_commit;
    eauto using R_loop_head, R_on_begin, R_on_start_reply, R_on_poll_reply.
Qed.

Lemma fwd_step e w : adm e → fwd R (heap w) (heap (step e w)).
Proof.
  intros Hadm. destruct e as [u tk dn|u|u tl|u|u|tid wk]; simpl.
  - unfold add_account. repeat case_match; simpl;
      auto using fwd_refl, fwd_app.
  - unfold remove_account, mutate. repeat case_match; simpl;
      auto using fwd_refl, fwd_alter.
  - unfold start, mutate.
    destruct (ACCOUNTS w !! u) as [a|]; [|apply fwd_refl].
    destruct tl as [t|]; [destruct (t <? 1) eqn:Ht; [apply fwd_refl|]|];
      destruct (live_handle u _); simpl;
      try apply fwd_refl; try (by apply fwd_alter).
    + apply fwd_alter. intros acc. apply R_target. lia.
    + eapply fwd_trans; [|by apply fwd_alter].
      apply fwd_alter. intros acc. apply R_target. lia.
  - unfold stop, mutate. repeat case_match; simpl;
      auto using fwd_refl, fwd_alter.
  - unfold reset_today, mutate. repeat case_match; simpl;
      eauto using fwd_refl, fwd_alter.
  - by apply fwd_resume.
Qed.

Lemma fwd_exec tr w : Forall adm tr → fwd R (heap w) (heap (exec tr w)).
Proof.
  intros Htr. revert w.
  induction Htr as [|e tr He _ IH]; intros w; simpl; [apply fwd_refl|].
  eapply fwd_trans; [by apply fwd_step|apply IH].
Qed.
End HeapRelation.

(** Only a successful [add_account] allocates. *)
Lemma step_heap_length e w :
  length (heap (step e w)) = length (heap w)
  ∨ ∃ u tk dn, e = CallAdd u tk dn
               ∧ ACCOUNTS w !! u = None
               ∧ heap (step e w) = heap w ++ [new_account u tk dn]
               ∧ ACCOUNTS (step e w) = <[u := length (heap w)]> (ACCOUNTS w).
Proof.
  destruct e as [u tk dn|u|u tl|u|u|tid wk]; simpl.
  - unfold add_account. repeat case_match; simpl; auto.
    right. exists u, tk, dn. repeat split.
    apply eq_None_not_Some. by eapply bool_decide_eq_false_1.
  - left. unfold remove_account, mutate. repeat case_match; simpl;
      by rewrite ?length_alter.
  - left. unfold start, mutate. repeat case_match; simplify_eq; simpl;
      by rewrite ?length_alter.
  - left. unfold stop, mutate. repeat case_match; simpl;
      by rewrite ?length_alter.
  - left. unfold reset_today, mutate. repeat case_match; simpl;
      by rewrite ?length_alter.
  - left. unfold resume, commit. repeat case_match; simpl;
      by rewrite ?length_insert.
Qed.

Section HeapInvariant.
Variable P : Account → Prop.
Variable adm : Event → Prop.

Hypothesis P_new : ∀ u tk dn, P (new_account u tk dn).
Hypothesis P_online : ∀ acc, P acc → P (set_online true acc).
Hypothesis P_matchmaking : ∀ b acc, P acc → P (set_matchmaking b acc).
Hypothesis P_running : ∀ b acc, P acc → P (set_running b acc).
Hypothesis P_target :
  ∀ t acc, 1 ≤ t → P acc → P (set_target_level (Some t) acc).
Hypothesis P_reset :
  ∀ u acc, adm (CallResetToday u) → P acc → P (set_today_xp 0 acc).
Hypothesis P_credit :
  ∀ tid res acc, adm (Resume tid (PollReplied res)) →
                 P acc → P (credit (gained_of res) acc).

Lemma heap_all_step e w : adm e → heap_all P w → heap_all P (step e w).
Proof.
  intros Hadm Hw a acc' Ha'.
  destruct (heap w !! a) as [acc|] eqn:Ha.
  - assert (fwd (λ x y, P x → P y) (heap w) (heap (step e w))) as Hfwd
      by (apply (fwd_step _ adm); simpl; eauto).
    destruct (Hfwd a acc Ha) as (acc'' & Ha'' & HP).
    simplify_eq. eauto.
  - apply lookup_ge_None in Ha.
    destruct (step_heap_length e w) as [Hlen|(u & tk & dn & _ & _ & Hh & _)].
    + apply lookup_lt_Some in Ha'. lia.
    + rewrite Hh in Ha'. apply lookup_snoc_Some in Ha' as [[? _]|[_ <-]];
        [lia|apply P_new].
Qed.

Lemma heap_all_exec tr w : Forall adm tr → heap_all P w → heap_all P (exec tr w).
Proof.
  intros Htr. revert w.
  induction Htr as [|e tr He _ IH]; intros w Hw; simpl; [done|].
  apply IH. by apply heap_all_step.
Qed.

Lemma heap_all_empty : heap_all P empty_world.
Proof. intros a acc Ha. done. Qed.
End HeapInvariant.

(** ** [current_level] is derived from [total_xp] *)

Lemma level_ok_credit g acc : level_ok (credit g acc).
Proof. reflexivity. Qed.

Lemma level_ok_exec tr w :
  heap_all level_ok w → heap_all level_ok (exec tr w).
Proof.
  apply (heap_all_exec level_ok (λ _, True)); try done.
  by apply Forall_forall.
Qed.

(** ** Experience never shrinks *)

Lemma gained_of_nonneg tid res :
  gain_nonneg (Resume tid (PollReplied res)) → 0 ≤ gained_of res.
Proof. destruct res; simpl; lia. Qed.

(** With the default bounds the built-in mock gateway is such a gateway. *)
Lemma mock_status_gain_nonneg tid g :
  mock_status_gain g = true → gain_nonneg (Resume tid (PollReplied (Some g))).
Proof.
  unfold mock_status_gain, XP_MIN. intros [Hmin _]%andb_prop. simpl. lia.
Qed.

Lemma xp_nonneg_exec tr w :
  Forall gain_nonneg tr → heap_all xp_nonneg w → heap_all xp_nonneg (exec tr w).
Proof.
  apply (heap_all_exec xp_nonneg gain_nonneg); try done.
  - intros _ acc _ [_ ?]. split; simpl; [lia|done].
  - intros tid res acc Hg%gained_of_nonneg [? ?]. split; simpl; lia.
Qed.

Lemma total_xp_fwd_exec tr w :
  Forall gain_nonneg tr →
  fwd (λ x y, total_xp x ≤ total_xp y) (heap w) (heap (exec tr w)).
Proof.
  apply (fwd_exec _ gain_nonneg); try (simpl; intros; lia).
  intros tid res acc Hg%gained_of_nonneg. simpl. lia.
Qed.

Lemma today_xp_fwd_exec tr w :
  Forall (λ e, gain_nonneg e ∧ ¬ is_reset e) tr →
  fwd (λ x y, today_xp x ≤ today_xp y) (heap w) (heap (exec tr w)).
Proof.
  apply (fwd_exec _ (λ e, gain_nonneg e ∧ ¬ is_reset e));
    try (simpl; intros; lia).
  intros tid res acc [Hg%gained_of_nonneg _]. simpl. lia.
Qed.

Lemma reset_today_heap u w a acc :
  heap w !! a = Some acc →
  ∃ acc', heap (reset_today u w).2 !! a = Some acc'
          ∧ total_xp acc' = total_xp acc
          ∧ (today_xp acc' = today_xp acc ∨ today_xp acc' = 0).
Proof.
  intros Ha. unfold reset_today, mutate.
  destruct (ACCOUNTS w !! u) as [a0|]; simpl; [|by eauto].
  rewrite (alter_lookup_Some _ _ _ _ _ Ha). eexists. split; [done|].
  case_decide; simpl; auto.
Qed.

(** ** Handles and tasks *)

Lemma live_handle_Some u w tid :
  live_handle u w = Some tid
  ↔ ∃ t, TASKS w !! u = Some tid ∧ pool w !! tid = Some t ∧ done t = false.
Proof.
  unfold live_handle, handle. split.
  - destruct (TASKS w !! u) as [tid'|]; [|done].
    destruct (pool w !! tid') as [t|] eqn:Ht; [|done].
    destruct (done t) eqn:Hd; [done|]. intros [= <-]. eauto.
  - intros (t & -> & -> & ->). done.
Qed.

Lemma live_handle_None u w :
  live_handle u w = None
  ↔ ∀ tid t, TASKS w !! u = Some tid → pool w !! tid = Some t → done t = true.
Proof.
  unfold live_handle, handle. split.
  - intros Hl tid t Hu Ht. rewrite Hu, Ht in Hl. by destruct (done t).
  - intros Hd. destruct (TASKS w !! u) as [tid|]; [|done].
    destruct (pool w !! tid) as [t|] eqn:Ht; [|done].
    by rewrite (Hd tid t).
Qed.

Lemma live_handle_mutate a f u w : live_handle u (mutate a f w) = live_handle u w.
Proof. reflexivity. Qed.

Lemma active_cancel t : active (cancel t) = false.
Proof.
  unfold active, cancel. destruct (done t) eqn:Hd; simpl.
  - by rewrite Hd.
  - unfold done in *. simpl. rewrite Hd. done.
Qed.

Lemma active_inv t : active t = true → done t = false ∧ t_must_cancel t = false.
Proof.
  unfold active. destruct (done t), (t_must_cancel t); naive_solver.
Qed.

Lemma done_not_active t : done t = true → active t = false.
Proof. unfold active. by intros ->. Qed.

Lemma t_uid_cancel t : t_uid (cancel t) = t_uid t.
Proof. unfold cancel. by destruct (done t). Qed.

Lemma done_cancel t : done (cancel t) = done t.
Proof. unfold cancel. by destruct (done t) eqn:Hd. Qed.

Lemma resume_TASKS tid wk w : TASKS (resume tid wk w) = TASKS w.
Proof. unfold resume, commit. by repeat case_match. Qed.

Lemma resume_ACCOUNTS tid wk w : ACCOUNTS (resume tid wk w) = ACCOUNTS w.
Proof. unfold resume, commit. by repeat case_match. Qed.

(** What a scheduling does to the pool: at most the coroutine of the
    scheduled task changes, and only if that task was not finished. *)
Lemma resume_pool tid wk w :
  pool (resume tid wk w) = pool w
  ∨ ∃ t c, pool w !! tid = Some t ∧ done t = false
           ∧ pool (resume tid wk w) = alter (set_coro c) tid (pool w)
           ∧ (t_must_cancel t = true → c = Cancelled).
Proof.
  unfold resume. destruct (pool w !! tid) as [t|] eqn:Ht; [|by left].
  destruct (done t) eqn:Hd; [by left|].
  destruct (t_must_cancel t) eqn:Hc.
  { right. exists t, Cancelled. done. }
  unfold commit.
  repeat case_match; simpl; auto; right; eexists _, _; split_and!; eauto;
    congruence.
Qed.

Lemma start_cases u tl w : start_outcome u tl w (start u tl w).
Proof.
  unfold start. destruct (ACCOUNTS w !! u) as [a|] eqn:Ha;
    [|by constructor].
  destruct tl as [t|]; [destruct (t <? 1) eqn:Ht|].
  - eapply start_invalid; eauto. lia.
  - rewrite live_handle_mutate.
    destruct (live_handle u w) as [tid|] eqn:Hl.
    + apply (start_already u (Some t) w a tid); simpl; auto. lia.
    + apply (start_spawned u (Some t) w a); simpl; auto. lia.
  - destruct (live_handle u w) as [tid|] eqn:Hl.
    + by apply (start_already u None w a tid).
    + by apply (start_spawned u None w a).
Qed.

Lemma inv_tasks_step e w : inv_tasks w → inv_tasks (step e w).
Proof.
  intros Hw u' tid. destruct e as [u tk dn|u|u tl|u|u|tid0 wk]; simpl.
  - unfold add_account. repeat case_match; simpl; apply Hw.
  - unfold remove_account.
    destruct (ACCOUNTS w !! u) as [a|]; simpl; [|apply Hw].
    intros [Hne Hu]%lookup_delete_Some.
    destruct (live_handle u w); simpl in *.
    + destruct (Hw _ _ Hu) as (t & Ht & Hut).
      eexists. split; [by apply alter_lookup_Some|].
      case_decide; by rewrite ?t_uid_cancel.
    + by apply Hw.
  - destruct (start_cases u tl w) as [_|a t _ _ _|a tid0 _ _ _|a _ _ Hl];
      simpl; try apply Hw.
    + destruct tl; apply Hw.
    + intros [[<- <-]|[Hne Hu]]%lookup_insert_Some.
      * eexists. split; [by apply list_lookup_middle|done].
      * destruct (Hw _ _ Hu) as (t & Ht & Hut).
        eauto using lookup_app_l_Some.
  - unfold stop.
    destruct (ACCOUNTS w !! u) as [a|]; simpl; [|apply Hw].
    rewrite live_handle_mutate.
    destruct (live_handle u w); simpl; [|apply Hw].
    intros Hu. destruct (Hw _ _ Hu) as (t & Ht & Hut).
    eexists. split; [by apply alter_lookup_Some|].
    case_decide; by rewrite ?t_uid_cancel.
  - unfold reset_today. repeat case_match; simpl; apply Hw.
  - rewrite resume_TASKS. intros Hu.
    destruct (Hw _ _ Hu) as (t & Ht & Hut).
    destruct (resume_pool tid0 wk w) as [->|(t0 & c & _ & _ & -> & _)];
      [by eauto|].
    eexists. split; [by apply alter_lookup_Some|].
    by case_decide.
Qed.

Lemma inv_registered_step e w : inv_registered w → inv_registered (step e w).
Proof.
  intros Hw tid t. destruct e as [u tk dn|u|u tl|u|u|tid0 wk]; simpl.
  - unfold add_account. repeat case_match; simpl; apply Hw.
  - unfold remove_account.
    destruct (ACCOUNTS w !! u) as [a|]; simpl; [|apply Hw].
    destruct (live_handle u w) as [tid0|] eqn:Hl; simpl.
    + intros (t0 & Ht0 & ->)%alter_lookup_inv Hact.
      case_decide as Htid; [by rewrite active_cancel in Hact|].
      pose proof (Hw _ _ Ht0 Hact) as Hreg.
      rewrite lookup_delete_ne; [done|]. intros Hu. rewrite <- Hu in Hreg.
      apply live_handle_Some in Hl as (? & ? & _). congruence.
    + intros Ht Hact. pose proof (Hw _ _ Ht Hact) as Hreg.
      rewrite lookup_delete_ne; [done|]. intros Hu. rewrite <- Hu in Hreg.
      rewrite live_handle_None in Hl. apply active_inv in Hact as [Hd _].
      rewrite (Hl _ _ Hreg Ht) in Hd. done.
  - destruct (start_cases u tl w) as [_|a t0 _ _ _|a tid0 _ _ _|a _ _ Hl];
      simpl; try apply Hw.
    + destruct tl; apply Hw.
    + intros [[_ Ht]|[-> <-]]%lookup_snoc_Some Hact.
      * pose proof (Hw _ _ Ht Hact) as Hreg.
        rewrite lookup_insert_ne; [done|]. intros Hu. rewrite <- Hu in Hreg.
        rewrite live_handle_None in Hl. apply active_inv in Hact as [Hd _].
        rewrite (Hl _ _ Hreg Ht) in Hd. done.
      * simpl. apply lookup_insert_eq.
  - unfold stop.
    destruct (ACCOUNTS w !! u) as [a|]; simpl; [|apply Hw].
    rewrite live_handle_mutate.
    destruct (live_handle u w) as [tid0|] eqn:Hl; simpl; [|apply Hw].
    intros (t0 & Ht0 & ->)%alter_lookup_inv Hact.
    case_decide as Htid; [by rewrite active_cancel in Hact|].
    by apply Hw.
  - unfold reset_today. repeat case_match; simpl; apply Hw.
  - rewrite resume_TASKS.
    destruct (resume_pool tid0 wk w) as [->|(t0 & c & Ht0 & Hd0 & -> & Hc)];
      [by apply Hw|].
    intros (t1 & Ht1 & ->)%alter_lookup_inv Hact.
    case_decide as Htid; [subst tid0|by apply Hw].
    assert (t1 = t0) as -> by congruence.
    simpl. apply Hw; [done|].
    unfold active in *. rewrite Hd0. simpl.
    destruct (t_must_cancel t0) eqn:Hm; [|done].
    rewrite (Hc eq_refl) in Hact. done.
Qed.

Lemma inv_registered_exec tr w : inv_registered w → inv_registered (exec tr w).
Proof.
  revert w. induction tr as [|e tr IH]; intros w Hw; simpl; [done|].
  by apply IH, inv_registered_step.
Qed.

Lemma inv_tasks_exec tr w : inv_tasks w → inv_tasks (exec tr w).
Proof.
  revert w. induction tr as [|e tr IH]; intros w Hw; simpl; [done|].
  by apply IH, inv_tasks_step.
Qed.

Lemma inv_registered_empty : inv_registered empty_world.
Proof. intros tid t Ht. done. Qed.

Lemma inv_tasks_empty : inv_tasks empty_world.
Proof. intros u tid Hu. done. Qed.

(** At most one element of a list satisfies a property that pins down the
    position. *)
Lemma filter_length_le_1 {A} (P : A → Prop) `{∀ x, Decision (P x)} (l : list A) :
  (∀ i j x y, l !! i = Some x → l !! j = Some y → P x → P y → i = j) →
  (length (filter P l) ≤ 1)%nat.
Proof.
  induction l as [|x l IH]; intros Huniq; [simpl; lia|].
  rewrite filter_cons. destruct (decide (P x)) as [Hx|Hx].
  - destruct (filter P l) as [|y l'] eqn:Hf; [simpl; lia|].
    assert (y ∈ filter P l) as [Hpy Hy]%list_elem_of_filter
      by (rewrite Hf; left).
    apply list_elem_of_lookup in Hy as [j Hj].
    specialize (Huniq 0%nat (S j) x y eq_refl Hj Hx Hpy). done.
  - apply IH. intros i j x' y' Hi Hj Hx' Hy'.
    specialize (Huniq (S i) (S j) x' y' Hi Hj Hx' Hy'). lia.
Qed.

Lemma count_active_le_1 u w : inv_registered w → (count_active u w ≤ 1)%nat.
Proof.
  intros Hw. unfold count_active. apply filter_length_le_1.
  intros i j x y Hi Hj [Hux Hax] [Huy Hay].
  pose proof (Hw _ _ Hi Hax) as Hri. pose proof (Hw _ _ Hj Hay) as Hrj.
  congruence.
Qed.

(** ** The ways a scheduling can go *)

Lemma commit_ran tid wk w t a seg :
  pool w !! tid = Some t → active t = true → runs w t wk a seg →
  resume_outcome tid wk w (commit tid a seg w).
Proof.
  intros Ht Hact Hruns. unfold commit.
  destruct (heap w !! a) as [acc|] eqn:Ha; [|constructor].
  pose proof (resume_ran tid wk w t a acc seg Ht Hact Ha Hruns) as Hran.
  by destruct (seg acc).
Qed.

Lemma resume_cases tid wk w : resume_outcome tid wk w (resume tid wk w).
Proof.
  unfold resume. destruct (pool w !! tid) as [t|] eqn:Ht; [|constructor].
  destruct (done t) eqn:Hd; [constructor|].
  destruct (t_must_cancel t) eqn:Hc; [by eapply resume_cancelled|].
  assert (active t = true) as Hact by (unfold active; by rewrite Hd, Hc).
  destruct (t_coro t) as [|a p| | |] eqn:Hco, wk as [|ok| |res];
    try constructor.
  1: { destruct (ACCOUNTS w !! t_uid t) as [a|] eqn:Ha.
       - eapply commit_ran; eauto. by constructor.
       - by eapply resume_key_error. }
  all: destruct p; try constructor; eapply commit_ran; eauto; by constructor.
Qed.

(** A piece that ends at an [await] leaves [running] set, and keeps the
    same [acc]. *)
Lemma runs_suspended w t wk a seg acc a' p :
  runs w t wk a seg →
  t_coro t = Created ∨ running acc = true →
  (seg acc).2 = Suspended a' p →
  a' = a ∧ running (seg acc).1 = true.
Proof.
  intros Hruns Hrun. destruct Hruns as [a Hc Ha|a ok Hc|a Hc|a res Hc|a Hc].
  - unfold on_begin, loop_head. simpl. by intros [= <- <-].
  - destruct Hrun as [|Hrun]; [congruence|].
    unfold on_start_reply. destruct ok; simpl; [|done]. by intros [= <- <-].
  - destruct Hrun as [|Hrun]; [congruence|]. simpl. by intros [= <- <-].
  - destruct Hrun as [|Hrun]; [congruence|].
    unfold on_poll_reply. repeat case_match; simpl; try done;
      by intros [= <- <-].
  - destruct Hrun as [|Hrun]; [congruence|].
    unfold loop_head. rewrite Hrun. simpl. by intros [= <- <-].
Qed.

(** ** Accounts and the loops that hold them *)

Lemma uid_fwd_step e w :
  fwd (λ x y, uid x = uid y) (heap w) (heap (step e w)).
Proof.
  apply (fwd_step _ (λ _, True)); intros; try exact I;
    unfold credit; simpl in *; congruence.
Qed.

Lemma step_ACCOUNTS e w u a :
  ACCOUNTS (step e w) !! u = Some a →
  ACCOUNTS w !! u = Some a
  ∨ heap w !! a = None ∧ ∃ acc, heap (step e w) !! a = Some acc ∧ uid acc = u.
Proof.
  destruct e as [u0 tk dn|u0|u0 tl|u0|u0|tid0 wk]; simpl.
  - unfold add_account. repeat case_match; simpl; auto.
    intros [[<- <-]|[_ ?]]%lookup_insert_Some; [right|by left].
    split; [by apply lookup_ge_None_2|].
    eexists. split; [by apply list_lookup_middle|done].
  - unfold remove_account. repeat case_match; simpl; auto;
      intros [_ ?]%lookup_delete_Some; auto.
  - destruct (start_cases u0 tl w); simpl; auto. destruct tl; auto.
  - unfold stop. repeat case_match; simpl; auto.
  - unfold reset_today. repeat case_match; simpl; auto.
  - rewrite resume_ACCOUNTS. auto.
Qed.

Lemma inv_accounts_step e w : inv_accounts w → inv_accounts (step e w).
Proof.
  intros Hw u a [Hu|[_ Hnew]]%step_ACCOUNTS; [|done].
  destruct (Hw _ _ Hu) as (acc & Ha & Huid).
  destruct (uid_fwd_step e w _ _ Ha) as (acc' & Ha' & Huid').
  exists acc'. split; [done|congruence].
Qed.

Lemma holder_uid w u u' a :
  inv_accounts w → ACCOUNTS w !! u = Some a → ACCOUNTS w !! u' = Some a → u = u'.
Proof.
  intros Hacc Hu Hu'.
  destruct (Hacc _ _ Hu) as (acc & Ha & <-).
  destruct (Hacc _ _ Hu') as (acc' & Ha' & <-). congruence.
Qed.

(** A uid with a loop that can still run has a live handle: that loop. *)
Lemma active_live_handle w tid t :
  inv_registered w → pool w !! tid = Some t → active t = true →
  live_handle (t_uid t) w = Some tid.
Proof.
  intros Hreg Ht Hact. apply live_handle_Some. exists t.
  split_and!; [by apply Hreg|done|by apply active_inv].
Qed.

Lemma alter_running_lookup (f : Account → Account) (a0 : nat)
    (h : list Account) (a : nat) (acc : Account) :
  (∀ x, running x = true → running (f x) = true) →
  h !! a = Some acc → running acc = true →
  ∃ acc', alter f a0 h !! a = Some acc' ∧ running acc' = true.
Proof.
  intros Hf Ha Hr. eexists. split; [by apply alter_lookup_Some|].
  case_decide; auto.
Qed.

Lemma retarget_pool a tl w : pool (retarget a tl w) = pool w.
Proof. by destruct tl. Qed.

Lemma retarget_ACCOUNTS a tl w : ACCOUNTS (retarget a tl w) = ACCOUNTS w.
Proof. by destruct tl. Qed.

Lemma retarget_TASKS a tl w : TASKS (retarget a tl w) = TASKS w.
Proof. by destruct tl. Qed.

Lemma inv_suspended_step e w :
  inv_accounts w → inv_registered w → inv_suspended w →
  inv_suspended (step e w).
Proof.
  intros Hacc Hreg Hw tid t a p.
  destruct e as [u tk dn|u|u tl|u|u|tid0 wk]; simpl.
  - unfold add_account.
    destruct (bool_decide (MAX_ACCOUNTS ≤ size (ACCOUNTS w))%nat);
      [apply Hw|].
    destruct (bool_decide (is_Some (ACCOUNTS w !! u))) eqn:Hu; [apply Hw|].
    apply bool_decide_eq_false_1 in Hu. simpl. intros Ht Hact Hco.
    destruct (Hw _ _ _ _ Ht Hact Hco) as (Ha & acc & Hh & Hr). split.
    + rewrite lookup_insert_ne; [done|]. intros ->. apply Hu. eauto.
    + exists acc. split; [by apply lookup_app_l_Some|done].
  - unfold remove_account.
    destruct (ACCOUNTS w !! u) as [a0|] eqn:Hu; simpl; [|apply Hw].
    destruct (live_handle u w) as [tid0|] eqn:Hl; simpl.
    + intros (t0 & Ht0 & ->)%alter_lookup_inv Hact.
      case_decide as Htid; [by rewrite active_cancel in Hact|].
      intros Hco. destruct (Hw _ _ _ _ Ht0 Hact Hco) as (Ha & acc & Hh & Hr).
      assert (t_uid t0 ≠ u) as Hne.
      { intros Heq. pose proof (active_live_handle _ _ _ Hreg Ht0 Hact).
        congruence. }
      split; [by rewrite lookup_delete_ne|].
      exists acc. split; [|done]. rewrite list_lookup_alter_ne; [done|].
      intros <-. apply Hne. by eapply holder_uid.
    + intros Ht Hact Hco.
      destruct (Hw _ _ _ _ Ht Hact Hco) as (Ha & acc & Hh & Hr).
      assert (t_uid t ≠ u) as Hne.
      { intros Heq. pose proof (active_live_handle _ _ _ Hreg Ht Hact).
        congruence. }
      split; [by rewrite lookup_delete_ne|]. eauto.
  - destruct (start_cases u tl w) as [_|a0 t0 _ _ _|a0 tid0 _ _ _|a0 _ _ Hl];
      simpl; try apply Hw.
    + rewrite retarget_pool, retarget_ACCOUNTS. intros Ht Hact Hco.
      destruct (Hw _ _ _ _ Ht Hact Hco) as (Ha & acc & Hh & Hr).
      split; [done|]. destruct tl; simpl; [|by eauto].
      by apply (alter_running_lookup _ _ _ _ acc).
    + intros [[_ Ht]|[-> <-]]%lookup_snoc_Some Hact Hco; [|done].
      destruct (Hw _ _ _ _ Ht Hact Hco) as (Ha & acc & Hh & Hr).
      split; [done|].
      assert (∃ acc1, heap (retarget a0 tl w) !! a = Some acc1
                      ∧ running acc1 = true) as (acc1 & Hh1 & Hr1).
      { destruct tl; simpl; [|by eauto].
        by apply (alter_running_lookup _ _ _ _ acc). }
      by apply (alter_running_lookup _ _ _ _ acc1).
  - unfold stop.
    destruct (ACCOUNTS w !! u) as [a0|] eqn:Hu; simpl; [|apply Hw].
    rewrite live_handle_mutate.
    assert (∀ t1, pool w !! tid = Some t1 → active t1 = true →
                  t_coro t1 = Suspended a p → live_handle u w ≠ Some tid →
                  ACCOUNTS w !! t_uid t1 = Some a
                  ∧ ∃ acc, alter (set_running false) a0 (heap w) !! a = Some acc
                           ∧ running acc = true) as Hkeep.
    { intros t1 Ht1 Hact Hco Hnl.
      destruct (Hw _ _ _ _ Ht1 Hact Hco) as (Ha & acc & Hh & Hr).
      split; [done|]. exists acc. split; [|done].
      rewrite list_lookup_alter_ne; [done|]. intros <-. apply Hnl.
      rewrite (holder_uid _ _ _ _ Hacc Hu Ha).
      by apply active_live_handle. }
    destruct (live_handle u w) as [tid0|] eqn:Hl; simpl.
    + intros (t0 & Ht0 & ->)%alter_lookup_inv Hact.
      case_decide as Htid; [by rewrite active_cancel in Hact|].
      intros Hco. apply (Hkeep t0); auto. congruence.
    + intros Ht Hact Hco. by apply (Hkeep t).
  - unfold reset_today.
    destruct (ACCOUNTS w !! u) as [a0|] eqn:Hu; simpl; [|apply Hw].
    intros Ht Hact Hco.
    destruct (Hw _ _ _ _ Ht Hact Hco) as (Ha & acc & Hh & Hr).
    split; [done|]. by apply (alter_running_lookup _ _ _ _ acc).
  - destruct (resume_cases tid0 wk w)
      as [|t0 Ht0 Hd0 Hc0|t0 Ht0 Hco0 Hc0 Ha0|t0 a0 acc0 seg Ht0 Hact0 Hh0 Hruns];
      simpl; [apply Hw| | |].
    + intros (t1 & Ht1 & ->)%alter_lookup_inv Hact Hco.
      case_decide as Htid; [done|]. by apply (Hw tid t1 a p).
    + intros (t1 & Ht1 & ->)%alter_lookup_inv Hact Hco.
      case_decide as Htid; [done|]. by apply (Hw tid t1 a p).
    + assert (ACCOUNTS w !! t_uid t0 = Some a0
              ∧ (t_coro t0 = Created ∨ running acc0 = true)) as [Hu0 Hrun0].
      { destruct Hruns as [a0 Hc Ha|a0 ok Hc|a0 Hc|a0 res Hc|a0 Hc];
          [by auto|..];
          destruct (Hw _ _ _ _ Ht0 Hact0 Hc) as (Ha & acc & Hh & Hr);
          (split; [done|right; congruence]). }
      intros (t1 & Ht1 & ->)%alter_lookup_inv Hact.
      case_decide as Htid.
      * subst tid0. assert (t1 = t0) as -> by congruence. simpl.
        intros Hco.
        destruct (runs_suspended _ _ _ _ _ acc0 _ _ Hruns Hrun0 Hco)
          as [-> Hr].
        split; [done|]. eexists. split; [|exact Hr].
        apply list_lookup_insert_eq. by eapply lookup_lt_Some.
      * intros Hco.
        destruct (Hw _ _ _ _ Ht1 Hact Hco) as (Ha & acc & Hh & Hr).
        split; [done|]. exists acc. split; [|done].
        rewrite list_lookup_insert_ne; [done|]. intros <-. apply Htid.
        pose proof (holder_uid _ _ _ _ Hacc Hu0 Ha) as Heq.
        pose proof (Hreg _ _ Ht0 Hact0) as Hr0.
        pose proof (Hreg _ _ Ht1 Hact) as Hr1. congruence.
Qed.

Lemma wf_empty : wf empty_world.
Proof. split; intros ?; intros; done. Qed.

Lemma wf_step e w : wf w → wf (step e w).
Proof.
  intros [Ha Ht Hr Hs]. split.
  - by apply inv_accounts_step.
  - by apply inv_tasks_step.
  - by apply inv_registered_step.
  - by apply inv_suspended_step.
Qed.

Lemma wf_exec tr w : wf w → wf (exec tr w).
Proof.
  revert w. induction tr as [|e tr IH]; intros w Hw; simpl; [done|].
  by apply IH, wf_step.
Qed.

(** * The properties of the supervisor *)

(** C7.  For every non-negative [xp] the level function returns
    [max(1, xp div 1000 + 1)], which is then [xp div 1000 + 1]: level [n]
    covers the scores from [1000 * (n - 1)] to [1000 * n - 1].  It is
    at least 1, it never decreases when the score grows, and
    [level_from_xp 0 = 1], [level_from_xp 999 = 1], [level_from_xp 1000 = 2],
    [level_from_xp 2500 = 3]. *)
Theorem level_from_xp_spec (x y : Z) :
  0 ≤ x → x ≤ y →
  level_from_xp x = Z.max 1 (x / 1000 + 1)
  ∧ level_from_xp x = x / 1000 + 1
  ∧ 1000 * (level_from_xp x - 1) ≤ x < 1000 * level_from_xp x
  ∧ 1 ≤ level_from_xp x
  ∧ level_from_xp x ≤ level_from_xp y
  ∧ level_from_xp 0 = 1 ∧ level_from_xp 999 = 1
  ∧ level_from_xp 1000 = 2 ∧ level_from_xp 2500 = 3.
Proof.
  intros Hx Hxy. split_and!; try reflexivity.
  - by apply level_from_xp_nonneg.
  - rewrite level_from_xp_nonneg by done.
    pose proof (Z.mul_div_le x 1000). lia.
  - rewrite level_from_xp_nonneg by done.
    pose proof (Z.mul_succ_div_gt x 1000). lia.
  - apply level_from_xp_ge_1.
  - by apply level_from_xp_mono.
Qed.

Lemma level_from_xp_spec_witness :
  0 ≤ 999 ∧ 999 ≤ 1000 ∧ level_from_xp 999 ≤ level_from_xp 1000.
Proof.
  split; [lia|]. split; [lia|].
  apply (level_from_xp_spec 999 1000); lia.
Defined.

(** C8.  After every operation of every run (creation of an account, any
    handler, any piece of any loop), every account object has
    [current_level = level_from_xp total_xp]: the level is set when the
    object is created and recomputed by the very assignments that change
    [total_xp], and by nothing else. *)
Theorem current_level_derived (tr : list Event) (a : nat) (acc : Account) :
  heap (exec tr empty_world) !! a = Some acc →
  current_level acc = level_from_xp (total_xp acc) ∧ 1 ≤ current_level acc.
Proof.
  intros Ha.
  assert (level_ok acc) as Hl.
  { eapply level_ok_exec; [|exact Ha]. apply heap_all_empty. }
  split; [exact Hl|]. rewrite Hl. apply level_from_xp_ge_1.
Qed.

Lemma current_level_derived_witness :
  heap demo_A !! 0%nat
  = Some (mkAccount "A" "tokA" "User A" None true false 2 (Some 2) 1000 1000 false)
  ∧ 2 = level_from_xp 1000.
Proof.
  split; [vm_compute; reflexivity|].
  apply (current_level_derived
           (CallAdd "A" "tokA" "" :: CallStart "A" (Some 2) :: demo_cycle 1000)
           0%nat
           (mkAccount "A" "tokA" "User A" None true false 2 (Some 2) 1000 1000 false)).
  vm_compute. reflexivity.
Defined.

(** C9.  With a gateway that never subtracts score (every poll answer of
    the run is non-negative), [total_xp] and [today_xp] of every account
    object are non-negative after every run, and every continuation of the
    run leaves [total_xp] at least as large as it was; [today_xp] likewise
    never decreases along a continuation without [reset_today], and
    [reset_today] sets it to 0 and leaves [total_xp] alone. *)
Theorem xp_never_shrinks (tr1 tr2 : list Event) (a : nat) (acc : Account) :
  Forall gain_nonneg tr1 → Forall gain_nonneg tr2 →
  heap (exec tr1 empty_world) !! a = Some acc →
  0 ≤ total_xp acc ∧ 0 ≤ today_xp acc
  ∧ (∃ acc', heap (exec tr2 (exec tr1 empty_world)) !! a = Some acc'
             ∧ total_xp acc ≤ total_xp acc'
             ∧ (Forall (λ e, ¬ is_reset e) tr2 → today_xp acc ≤ today_xp acc'))
  ∧ (∀ u, ACCOUNTS (exec tr1 empty_world) !! u = Some a →
          heap (step (CallResetToday u) (exec tr1 empty_world)) !! a
          = Some (set_today_xp 0 acc)).
Proof.
  intros Htr1 Htr2 Ha.
  assert (xp_nonneg acc) as [Htoday Htotal].
  { eapply xp_nonneg_exec; [exact Htr1|apply heap_all_empty|exact Ha]. }
  split_and!; [done|done| |].
  - destruct (total_xp_fwd_exec tr2 _ Htr2 _ _ Ha) as (acc' & Ha' & Hle).
    exists acc'. split_and!; [done|done|].
    intros Hnr.
    assert (Forall (λ e, gain_nonneg e ∧ ¬ is_reset e) tr2) as Hboth
      by (apply Forall_and; done).
    destruct (today_xp_fwd_exec tr2 _ Hboth _ _ Ha) as (acc'' & Ha'' & Hle').
    congruence.
  - intros u Hu. simpl. unfold reset_today, mutate. rewrite Hu. simpl.
    rewrite (alter_lookup_Some _ _ _ _ _ Ha). by rewrite decide_True.
Qed.

Lemma xp_never_shrinks_witness :
  Forall gain_nonneg (CallAdd "A" "tokA" "" :: CallStart "A" None :: demo_cycle 120)
  ∧ 120 ≤ 320.
Proof.
  assert (Forall gain_nonneg
            (CallAdd "A" "tokA" "" :: CallStart "A" None :: demo_cycle 120))
    as H1 by (repeat constructor; simpl; lia).
  assert (Forall gain_nonneg
            (Resume 0 TimerFired :: Resume 0 (StartReplied true)
             :: Resume 0 TimerFired :: [Resume 0 (PollReplied (Some 200))]))
    as H2 by (repeat constructor; simpl; lia).
  split; [exact H1|].
  destruct (xp_never_shrinks _ _ 0%nat
              (mkAccount "A" "tokA" "User A" None true false 1 None 120 120 true)
              H1 H2 eq_refl)
    as (_ & _ & (acc' & Ha' & Hle & _) & _).
  vm_compute in Ha'. injection Ha' as <-. exact Hle.
Defined.

(** ** Starting twice *)

Lemma count_active_ge_1 u w tid t :
  pool w !! tid = Some t → t_uid t = u → active t = true →
  (1 ≤ count_active u w)%nat.
Proof.
  intros Ht Hu Hact. unfold count_active.
  assert (t ∈ filter (λ t, t_uid t = u ∧ active t = true) (pool w)) as Hin.
  { apply list_elem_of_filter. split; [done|].
    apply list_elem_of_lookup. eauto. }
  destruct (filter _ (pool w)); [by apply elem_of_nil in Hin|simpl; lia].
Qed.

Lemma count_active_0 u w :
  (∀ tid t, pool w !! tid = Some t → t_uid t = u → active t = false) →
  count_active u w = 0%nat.
Proof.
  intros Hnone. unfold count_active.
  destruct (filter _ (pool w)) as [|t l] eqn:Hf; [done|].
  assert (t ∈ filter (λ t, t_uid t = u ∧ active t = true) (pool w))
    as [[Hu Hact] [tid Ht]%list_elem_of_lookup]%list_elem_of_filter
    by (rewrite Hf; left).
  rewrite (Hnone _ _ Ht Hu) in Hact. done.
Qed.

Lemma live_active_count w u tid :
  wf w → live_handle u w = Some tid → cancel_pending u w = false →
  count_active u w = 1%nat.
Proof.
  intros Hwf Hl Hcp.
  pose proof (count_active_le_1 u w (wf_registered _ Hwf)) as Hle.
  apply live_handle_Some in Hl as (t & Hu & Ht & Hd).
  destruct (wf_tasks _ Hwf _ _ Hu) as (t' & Ht' & Hut).
  assert (t' = t) as -> by congruence.
  unfold cancel_pending, handle in Hcp. rewrite Hu, Ht, Hd in Hcp.
  simpl in Hcp.
  assert (active t = true) as Hact by (unfold active; by rewrite Hd, Hcp).
  pose proof (count_active_ge_1 u w tid t Ht Hut Hact). lia.
Qed.

Lemma start_on_live u tl w a tid :
  ACCOUNTS w !! u = Some a → live_handle u w = Some tid → target_ok tl →
  start u tl w = (RespOk (Some "Already running"), retarget a tl w).
Proof.
  intros Ha Hl Htl.
  destruct (start_cases u tl w) as [Hn|a' t Ha' -> Hlt|a' tid' Ha' _ _|a' _ _ Hl'];
    simpl in *; [congruence|lia| |congruence].
  by assert (a' = a) as -> by congruence.
Qed.

Lemma live_handle_retarget a tl u w :
  live_handle u (retarget a tl w) = live_handle u w.
Proof. by destruct tl. Qed.

Lemma count_active_retarget a tl u w :
  count_active u (retarget a tl w) = count_active u w.
Proof. by destruct tl. Qed.

Lemma cancel_pending_retarget a tl u w :
  cancel_pending u (retarget a tl w) = cancel_pending u w.
Proof. by destruct tl. Qed.

Lemma idle_live_handle u w : idle u w = false ↔ is_Some (live_handle u w).
Proof.
  unfold idle. destruct (live_handle u w); split; try done; by intros [].
Qed.

(** After a successful [start] the uid has a live handle, with no
    cancellation pending unless one was pending before. *)
Lemma start_ok_live u tl w m w1 :
  start u tl w = (RespOk m, w1) →
  ∃ a tid, ACCOUNTS w1 !! u = Some a ∧ live_handle u w1 = Some tid
           ∧ (cancel_pending u w = false → cancel_pending u w1 = false)
           ∧ (idle u w = false →
              m = Some "Already running" ∧ pool w1 = pool w ∧ TASKS w1 = TASKS w).
Proof.
  intros Hs. pose proof (start_cases u tl w) as Hc. rewrite Hs in Hc.
  inversion Hc as [| |a tid Ha Htl Hl|a Ha Htl Hl]; subst; clear Hc.
  - exists a, tid. rewrite retarget_ACCOUNTS, live_handle_retarget,
      cancel_pending_retarget, retarget_pool, retarget_TASKS. done.
  - exists a, (length (pool w)). simpl. split_and!; [done| | |].
    + apply live_handle_Some. simpl. eexists.
      split_and!; [apply lookup_insert_eq|by apply list_lookup_middle|done].
    + intros _. unfold cancel_pending, handle. simpl.
      rewrite lookup_insert_eq, list_lookup_middle by done. done.
    + intros [tid Hl']%idle_live_handle. congruence.
Qed.

(** The specification's reading of C1 fails however the active loops are
    counted.  Counted by [Task.done()], two loops of a uid coexist after
    [remove_account], [add_account] and [start] while the cancelled loop
    has not been scheduled.  Counted as the loops that can still run, none
    is left after [stop] and two calls of [start], both of which answer
    "Already running". *)
Lemma one_loop_claim_fails :
  ¬ one_loop_claim count_unfinished ∧ ¬ one_loop_claim count_active.
Proof.
  split.
  - intros [H _].
    specialize (H (polling_A ++ [CallRemove "A"; CallAdd "A" "tokA" "";
                                 CallStart "A" None]) "A").
    vm_compute in H. lia.
  - intros [_ H].
    specialize (H (polling_A ++ [CallStop "A"]) "A" None None
                  (Some "Already running"%string)
                  (Some "Already running"%string)
                  (exec (polling_A ++ [CallStop "A"]) empty_world)
                  (exec (polling_A ++ [CallStop "A"]) empty_world)).
    assert (count_active "A" (exec (polling_A ++ [CallStop "A"]) empty_world)
            = 0%nat) as H0 by (vm_compute; reflexivity).
    rewrite H0 in H. discriminate H; vm_compute; reflexivity.
Qed.

(** C1, as the code has it.  In every state of every run and for every
    uid, at most one loop of that uid can still run, that is, has not
    finished and has no cancellation requested (a cancelled loop stays
    unfinished until it is scheduled, and is not counted).  A [start] that
    finds a handle whose loop has not finished answers "Already running"
    and spawns nothing; so after a successful [start] a second [start]
    spawns nothing and leaves at most one loop that can still run: exactly
    one when no cancellation of the uid's handle was pending before the
    first [start]. *)
Theorem one_active_loop (tr : list Event) (u : string) :
  let w := exec tr empty_world in
  (count_active u w ≤ 1)%nat
  ∧ ∀ tl1 m1 w1,
      start u tl1 w = (RespOk m1, w1) →
      (idle u w = false →
       m1 = Some "Already running" ∧ pool w1 = pool w ∧ TASKS w1 = TASKS w)
      ∧ ∀ tl2, target_ok tl2 →
          (start u tl2 w1).1 = RespOk (Some "Already running")
          ∧ pool (start u tl2 w1).2 = pool w1
          ∧ TASKS (start u tl2 w1).2 = TASKS w1
          ∧ (count_active u (start u tl2 w1).2 ≤ 1)%nat
          ∧ (cancel_pending u w = false →
             count_active u (start u tl2 w1).2 = 1%nat).
Proof.
  intros w.
  assert (wf w) as Hwf by apply wf_exec, wf_empty.
  split; [apply count_active_le_1, Hwf|].
  intros tl1 m1 w1 Hs.
  assert (wf w1) as Hwf1.
  { replace w1 with (step (CallStart u tl1) w) by (simpl; by rewrite Hs).
    by apply wf_step. }
  destruct (start_ok_live _ _ _ _ _ Hs) as (a & tid & Ha & Hl & Hcp & Hidle).
  split; [exact Hidle|]. intros tl2 Htl2.
  rewrite (start_on_live _ _ _ _ _ Ha Hl Htl2). simpl.
  rewrite retarget_pool, retarget_TASKS, count_active_retarget.
  split_and!; [done|done|done|apply count_active_le_1, Hwf1|].
  intros Hno. eapply live_active_count; eauto.
Qed.

Lemma one_active_loop_witness :
  count_active "A"
    (start "A" (Some 3)
       (start "A" None (exec [CallAdd "A" "tokA" ""] empty_world)).2).2
  = 1%nat.
Proof.
  pose proof (one_active_loop [CallAdd "A" "tokA" ""] "A") as [_ H].
  destruct (H None None
              (start "A" None (exec [CallAdd "A" "tokA" ""] empty_world)).2
              eq_refl) as [_ H2].
  destruct (H2 (Some 3)) as (_ & _ & _ & _ & H3); [simpl; lia|].
  apply H3. vm_compute. reflexivity.
Defined.

(** ** What one scheduling computes *)

Lemma resume_run tid wk w t a acc seg :
  pool w !! tid = Some t → active t = true → heap w !! a = Some acc →
  runs w t wk a seg →
  resume tid wk w
  = mkWorld (<[a := (seg acc).1]> (heap w)) (ACCOUNTS w)
            (alter (set_coro (seg acc).2) tid (pool w)) (TASKS w).
Proof.
  intros Ht [Hd Hc]%active_inv Ha Hruns. unfold resume.
  rewrite Ht, Hd, Hc.
  destruct Hruns as [a Hco Hu|a ok Hco|a Hco|a res Hco|a Hco]; rewrite Hco;
    rewrite ?Hu; unfold commit; rewrite Ha;
    match goal with |- context [let '(_, _) := ?s in _] => by destruct s end.
Qed.

Lemma resume_done tid wk w t :
  pool w !! tid = Some t → done t = true → resume tid wk w = w.
Proof. intros Ht Hd. unfold resume. by rewrite Ht, Hd. Qed.

Lemma resume_cancel tid wk w t :
  pool w !! tid = Some t → done t = false → t_must_cancel t = true →
  resume tid wk w = with_pool (alter (set_coro Cancelled) tid (pool w)) w.
Proof. intros Ht Hd Hc. unfold resume. by rewrite Ht, Hd, Hc. Qed.

(** The delivery of a cancellation ends the task and touches no account:
    the two statements after the [while] are not executed. *)
Lemma cancel_delivery tid wk w t :
  pool w !! tid = Some t → done t = false → t_must_cancel t = true →
  heap (resume tid wk w) = heap w
  ∧ t_coro <$> pool (resume tid wk w) !! tid = Some Cancelled.
Proof.
  intros Ht Hd Hc. rewrite (resume_cancel _ _ _ _ Ht Hd Hc). simpl.
  split; [done|]. by rewrite list_lookup_alter_eq, Ht.
Qed.

(** ** Leaving the loop *)

(** C2.  The loop clears [matchmaking] when it leaves through a failed
    submission or a reached target, but not when it is cancelled: after
    [add], [start], a successful submission and then [stop], the
    cancellation ends the loop at [asyncio.sleep(XP_PERIOD_SECONDS)] with
    [matchmaking] still set ([running] is cleared by [stop] itself). *)
Theorem stop_leaves_matchmaking_set :
  t_coro <$> pool stopped_while_waiting !! 0%nat = Some Cancelled
  ∧ done <$> pool stopped_while_waiting !! 0%nat = Some true
  ∧ account "A" stopped_while_waiting
    = Some (mkAccount "A" "tokA" "User A" None true true 1 None 0 0 false).
Proof. vm_compute. done. Qed.

Lemma handle_removed_on_exit_fails : ¬ handle_removed_on_exit.
Proof.
  intros H.
  specialize (H [ CallAdd "B" "tokB" ""; CallStart "B" None;
                  Resume 0 Begin; Resume 0 (StartReplied false) ]
                "B" 0%nat (mkTask "B" Returned false)).
  vm_compute in H. specialize (H eq_refl eq_refl). discriminate.
Qed.

Lemma idle_no_active u w :
  inv_registered w → idle u w = true → count_active u w = 0%nat.
Proof.
  intros Hreg Hidle. apply count_active_0. intros tid t Ht Hu.
  destruct (active t) eqn:Hact; [|done].
  pose proof (active_live_handle _ _ _ Hreg Ht Hact) as Hl.
  unfold idle in Hidle. rewrite Hu in Hl. by rewrite Hl in Hidle.
Qed.

(** C3, as the code has it.  A handle stays in the handle map, marked done,
    once its loop exits: no scheduling of a loop and no [stop] changes the
    map; [start] replaces the entry when it spawns and [remove_account]
    deletes it.  "No handle or handle finished" is the idle state: then no
    loop of the uid can run and [start] spawns one; otherwise [start]
    spawns nothing. *)
Theorem handle_kept_after_exit (tr : list Event) (u : string) :
  let w := exec tr empty_world in
  (∀ tid wk, TASKS (resume tid wk w) = TASKS w)
  ∧ TASKS (stop u w).2 = TASKS w
  ∧ (idle u w = true → count_active u w = 0%nat)
  ∧ (∀ a tl, ACCOUNTS w !! u = Some a → target_ok tl →
       if idle u w
       then (start u tl w).1 = RespOk None
            ∧ pool (start u tl w).2 = pool w ++ [mkTask u Created false]
            ∧ TASKS (start u tl w).2 = <[u := length (pool w)]> (TASKS w)
       else (start u tl w).1 = RespOk (Some "Already running")
            ∧ pool (start u tl w).2 = pool w
            ∧ TASKS (start u tl w).2 = TASKS w)
  ∧ (is_Some (ACCOUNTS w !! u) → TASKS (remove_account u w).2 !! u = None).
Proof.
  intros w.
  assert (wf w) as Hwf by apply wf_exec, wf_empty.
  split_and!.
  - intros tid wk. apply resume_TASKS.
  - unfold stop. by repeat case_match.
  - apply idle_no_active, Hwf.
  - intros a tl Ha Htl. unfold idle.
    destruct (live_handle u w) as [tid|] eqn:Hl.
    + rewrite (start_on_live _ _ _ _ _ Ha Hl Htl). simpl.
      by rewrite retarget_pool, retarget_TASKS.
    + destruct (start_cases u tl w)
        as [Hn|a' t Ha' -> Hlt|a' tid' Ha' _ Hl'|a' _ _ _];
        simpl in *; [congruence|lia|congruence|done].
  - intros [a Ha]. unfold remove_account. rewrite Ha. simpl.
    apply lookup_delete_eq.
Qed.

Lemma handle_kept_after_exit_witness :
  TASKS (exec [ CallAdd "B" "tokB" ""; CallStart "B" None;
                Resume 0 Begin; Resume 0 (StartReplied false) ]
              empty_world) !! "B" = Some 0%nat
  ∧ (start "B" None
       (exec [ CallAdd "B" "tokB" ""; CallStart "B" None;
               Resume 0 Begin; Resume 0 (StartReplied false) ]
             empty_world)).1 = RespOk None.
Proof.
  split; [vm_compute; reflexivity|].
  destruct (handle_kept_after_exit
              [ CallAdd "B" "tokB" ""; CallStart "B" None;
                Resume 0 Begin; Resume 0 (StartReplied false) ] "B")
    as (_ & _ & _ & H & _).
  specialize (H 0%nat None). vm_compute in H. vm_compute.
  apply H; [reflexivity|exact I].
Defined.

(** ** One cycle of the loop *)

Lemma loop_head_keeps_xp a acc :
  today_xp (loop_head a acc).1 = today_xp acc
  ∧ total_xp (loop_head a acc).1 = total_xp acc
  ∧ current_level (loop_head a acc).1 = current_level acc.
Proof. unfold loop_head. by destruct (running acc). Qed.

(** C4.  When [gw_start_match] fails in a cycle, the loop clears
    [matchmaking] and [running] and returns at once: the task is finished,
    no later scheduling does anything (no retry), and [today_xp],
    [total_xp] and [current_level] are what they were, also with respect
    to the start of the cycle. *)
Theorem submission_failure_ends_run
    (w : World) (tid a : nat) (t : Task) (acc : Account) :
  pool w !! tid = Some t → active t = true →
  t_coro t = Suspended a AtStartMatch → heap w !! a = Some acc →
  let w' := resume tid (StartReplied false) w in
  (∃ acc', heap w' !! a = Some acc'
           ∧ matchmaking acc' = false ∧ running acc' = false
           ∧ today_xp acc' = today_xp acc ∧ total_xp acc' = total_xp acc
           ∧ current_level acc' = current_level acc)
  ∧ t_coro <$> pool w' !! tid = Some Returned
  ∧ (∀ wk, resume tid wk w' = w')
  ∧ (∀ acc0, today_xp (loop_head a acc0).1 = today_xp acc0
             ∧ total_xp (loop_head a acc0).1 = total_xp acc0
             ∧ current_level (loop_head a acc0).1 = current_level acc0).
Proof.
  intros Ht Hact Hco Ha w'.
  assert (w' = mkWorld
            (<[a := (on_start_reply false a acc).1]> (heap w)) (ACCOUNTS w)
            (alter (set_coro (on_start_reply false a acc).2) tid (pool w))
            (TASKS w)) as Hw'.
  { apply (resume_run _ _ _ t); auto. by constructor. }
  assert (pool w' !! tid = Some (set_coro Returned t)) as Ht'.
  { rewrite Hw'. simpl. by rewrite list_lookup_alter_eq, Ht. }
  split_and!.
  - eexists. split.
    + rewrite Hw'. simpl. apply list_lookup_insert_eq. by eapply lookup_lt_Some.
    + done.
  - by rewrite Ht'.
  - intros wk. by apply (resume_done _ _ _ _ Ht').
  - apply loop_head_keeps_xp.
Qed.

Lemma submission_failure_ends_run_witness :
  pool submitting_B !! 0%nat = Some (mkTask "B" (Suspended 0 AtStartMatch) false)
  ∧ t_coro <$> pool (resume 0 (StartReplied false) submitting_B) !! 0%nat
    = Some Returned.
Proof.
  split; [vm_compute; reflexivity|].
  apply (submission_failure_ends_run submitting_B 0 0
           (mkTask "B" (Suspended 0 AtStartMatch) false)
           (mkAccount "B" "tokB" "User B" None true true 1 None 0 0 true));
    vm_compute; reflexivity.
Defined.

Lemma active_set_coro a p t :
  active t = true → active (set_coro (Suspended a p) t) = true.
Proof. intros [_ Hc]%active_inv. unfold active. simpl. by rewrite Hc. Qed.

(** After the short pause a loop whose [running] is set begins its next
    cycle. *)
Lemma yield_then_next w tid t a acc :
  pool w !! tid = Some t → active t = true → t_coro t = Suspended a AtYield →
  heap w !! a = Some acc → running acc = true →
  pool (resume tid TimerFired w) !! tid
  = Some (set_coro (Suspended a AtStartMatch) t)
  ∧ heap (resume tid TimerFired w) !! a = Some (set_matchmaking true acc).
Proof.
  intros Ht Hact Hco Ha Hrun.
  rewrite (resume_run tid TimerFired w t a acc (loop_head a) Ht Hact Ha);
    [|by constructor].
  unfold loop_head. rewrite Hrun. simpl. split.
  - by rewrite list_lookup_alter_eq, Ht.
  - apply list_lookup_insert_eq. by eapply lookup_lt_Some.
Qed.

(** C5.  When [gw_poll_result] fails in a cycle the gain is 0: [today_xp],
    [total_xp] and [current_level] are unchanged by the cycle.  Unless the
    target is already met the loop stays alive with [running] still set,
    pauses, and then starts its next cycle with a new submission; if the
    target is already met the loop returns. *)
Theorem poll_failure_is_zero_gain
    (tr : list Event) (tid a : nat) (t : Task) (acc : Account) :
  let w := exec tr empty_world in
  pool w !! tid = Some t → active t = true →
  t_coro t = Suspended a AtPollResult → heap w !! a = Some acc →
  let w' := resume tid (PollReplied None) w in
  ∃ acc', heap w' !! a = Some acc'
          ∧ today_xp acc' = today_xp acc ∧ total_xp acc' = total_xp acc
          ∧ current_level acc' = current_level acc
          ∧ if target_met acc
            then running acc' = false
                 ∧ t_coro <$> pool w' !! tid = Some Returned
            else running acc' = true
                 ∧ pool w' !! tid = Some (set_coro (Suspended a AtYield) t)
                 ∧ pool (resume tid TimerFired w') !! tid
                   = Some (set_coro (Suspended a AtStartMatch) t)
                 ∧ heap (resume tid TimerFired w') !! a
                   = Some (set_matchmaking true acc').
Proof.
  intros w Ht Hact Hco Ha w'.
  assert (wf w) as Hwf by apply wf_exec, wf_empty.
  assert (level_ok acc) as Hlvl.
  { eapply level_ok_exec; [|exact Ha]. apply heap_all_empty. }
  destruct (wf_suspended _ Hwf _ _ _ _ Ht Hact Hco) as (_ & acc1 & Ha1 & Hrun).
  assert (acc1 = acc) as -> by congruence.
  assert (w' = mkWorld
            (<[a := (on_poll_reply None a acc).1]> (heap w)) (ACCOUNTS w)
            (alter (set_coro (on_poll_reply None a acc).2) tid (pool w))
            (TASKS w)) as Hw'.
  { apply (resume_run _ _ _ t); auto. by constructor. }
  assert (a < length (heap w))%nat as Hlt by by eapply lookup_lt_Some.
  assert (heap w' !! a = Some (on_poll_reply None a acc).1) as Ha'.
  { rewrite Hw'. simpl. by apply list_lookup_insert_eq. }
  assert (pool w' !! tid = Some (set_coro (on_poll_reply None a acc).2 t))
    as Ht'.
  { rewrite Hw'. simpl. by rewrite list_lookup_alter_eq, Ht. }
  assert (level_from_xp (total_xp acc + 0) = current_level acc) as Hsame
    by (by rewrite Z.add_0_r, Hlvl).
  exists (on_poll_reply None a acc).1. split; [exact Ha'|].
  revert Ha' Ht'. unfold on_poll_reply, target_met. simpl.
  rewrite Hsame.
  destruct (target_level acc) as [tl|] eqn:Htl;
    [destruct (tl <=? current_level acc) eqn:Hmet|]; simpl;
    intros Ha' Ht'; (split_and!; [lia|lia|done|..]); try done.
  1: by rewrite Ht'.
  all: destruct (yield_then_next w' tid _ a _ Ht'
                   (active_set_coro _ _ _ Hact) eq_refl Ha' Hrun) as [Hp Hh];
    done.
Qed.

Lemma poll_failure_is_zero_gain_witness :
  pool polling_C !! 0%nat = Some (mkTask "C" (Suspended 0 AtPollResult) false)
  ∧ pool (resume 0 (PollReplied None) polling_C) !! 0%nat
    = Some (mkTask "C" (Suspended 0 AtYield) false).
Proof.
  unfold polling_C.
  assert (pool (exec [ CallAdd "C" "tokC" ""; CallStart "C" None;
                       Resume 0 Begin; Resume 0 (StartReplied true);
                       Resume 0 TimerFired ] empty_world) !! 0%nat
          = Some (mkTask "C" (Suspended 0 AtPollResult) false)) as Ht
    by (vm_compute; reflexivity).
  assert (heap (exec [ CallAdd "C" "tokC" ""; CallStart "C" None;
                       Resume 0 Begin; Resume 0 (StartReplied true);
                       Resume 0 TimerFired ] empty_world) !! 0%nat
          = Some (mkAccount "C" "tokC" "User C" None true true 1 None 0 0 true))
    as Ha by (vm_compute; reflexivity).
  split; [exact Ht|].
  pose proof (poll_failure_is_zero_gain
                [ CallAdd "C" "tokC" ""; CallStart "C" None; Resume 0 Begin;
                  Resume 0 (StartReplied true); Resume 0 TimerFired ]
                0 0 (mkTask "C" (Suspended 0 AtPollResult) false)
                (mkAccount "C" "tokC" "User C" None true true 1 None 0 0 true)
                Ht eq_refl eq_refl Ha) as H.
  vm_compute in H. vm_compute.
  destruct H as (acc' & _ & _ & _ & _ & _ & Hp & _). exact Hp.
Defined.

(** C6.  When the answer of a poll makes [current_level] reach
    [target_level], the loop clears [running] (and [matchmaking]) and
    returns: the task is finished, no later scheduling of it does anything,
    and no loop of that uid can run, so no further gateway call is made for
    the uid.  With [target_level = 2] and a gain of 1000, one full cycle
    from a fresh account ends with [total_xp = 1000], [current_level = 2]
    and [running = false]. *)
Theorem target_reached_ends_run
    (tr : list Event) (tid a : nat) (t : Task) (acc : Account)
    (res : option Z) (tl : Z) :
  let w := exec tr empty_world in
  pool w !! tid = Some t → active t = true →
  t_coro t = Suspended a AtPollResult → heap w !! a = Some acc →
  target_level acc = Some tl →
  tl ≤ level_from_xp (total_xp acc + gained_of res) →
  let w' := resume tid (PollReplied res) w in
  (∃ acc', heap w' !! a = Some acc'
           ∧ running acc' = false ∧ matchmaking acc' = false
           ∧ total_xp acc' = total_xp acc + gained_of res
           ∧ today_xp acc' = today_xp acc + gained_of res
           ∧ current_level acc' = level_from_xp (total_xp acc')
           ∧ tl ≤ current_level acc')
  ∧ t_coro <$> pool w' !! tid = Some Returned
  ∧ (∀ wk, resume tid wk w' = w')
  ∧ count_active (t_uid t) w' = 0%nat
  ∧ account "A" demo_A
    = Some (mkAccount "A" "tokA" "User A" None true false 2 (Some 2)
              1000 1000 false).
Proof.
  intros w Ht Hact Hco Ha Htl Hreach w'.
  assert (wf w) as Hwf by apply wf_exec, wf_empty.
  assert (wf w') as Hwf' by apply (wf_step (Resume tid (PollReplied res))), Hwf.
  assert (w' = mkWorld
            (<[a := (on_poll_reply res a acc).1]> (heap w)) (ACCOUNTS w)
            (alter (set_coro (on_poll_reply res a acc).2) tid (pool w))
            (TASKS w)) as Hw'.
  { apply (resume_run _ _ _ t); auto. by constructor. }
  assert (on_poll_reply res a acc
          = (after_loop (set_running false
               (set_matchmaking false (credit (gained_of res) acc))),
             Returned)) as Hseg.
  { unfold on_poll_reply. simpl. rewrite Htl.
    by rewrite (proj2 (Z.leb_le _ _) Hreach). }
  rewrite Hseg in Hw'. simpl in Hw'.
  assert (pool w' !! tid = Some (set_coro Returned t)) as Ht'.
  { rewrite Hw'. simpl. by rewrite list_lookup_alter_eq, Ht. }
  split_and!.
  - eexists. split.
    + rewrite Hw'. simpl. apply list_lookup_insert_eq. by eapply lookup_lt_Some.
    + simpl. done.
  - by rewrite Ht'.
  - intros wk. by apply (resume_done _ _ _ _ Ht').
  - apply count_active_0. intros tid2 t2 Ht2 Hu2.
    destruct (active t2) eqn:Hact2; [|done].
    pose proof (wf_registered _ Hwf' _ _ Ht2 Hact2) as Hr2.
    pose proof (wf_registered _ Hwf _ _ Ht Hact) as Hr.
    unfold w' in Hr2. rewrite resume_TASKS, Hu2, Hr in Hr2.
    injection Hr2 as <-. fold w' in Ht2.
    assert (t2 = set_coro Returned t) as -> by congruence. done.
  - vm_compute. reflexivity.
Qed.

Lemma target_reached_ends_run_witness :
  pool (exec polling_A empty_world) !! 0%nat
  = Some (mkTask "A" (Suspended 0 AtPollResult) false)
  ∧ count_active "A"
      (resume 0 (PollReplied (Some 1000)) (exec polling_A empty_world))
    = 0%nat.
Proof.
  split; [vm_compute; reflexivity|].
  apply (target_reached_ends_run polling_A 0 0
           (mkTask "A" (Suspended 0 AtPollResult) false)
           (mkAccount "A" "tokA" "User A" None true true 1 (Some 2) 0 0 true)
           (Some 1000) 2);
    vm_compute; solve [reflexivity | discriminate].
Defined.

(** ** Starting again with another target *)

(** C10.  A [start] with a valid target on an account whose handle is not
    finished answers "Already running", spawns nothing, touches no other
    field, and still stores the new target in the account; the running loop
    then ends by the new target: a loop that would pause and go on with
    target 5 returns once the second [start] has set the target to 1. *)
Theorem restart_overwrites_target
    (w : World) (u : string) (a tid : nat) (acc : Account) (tl : Z) :
  ACCOUNTS w !! u = Some a → heap w !! a = Some acc →
  live_handle u w = Some tid → 1 ≤ tl →
  start u (Some tl) w
  = (RespOk (Some "Already running"), mutate a (set_target_level (Some tl)) w)
  ∧ heap (start u (Some tl) w).2 !! a = Some (set_target_level (Some tl) acc)
  ∧ (∀ b, b ≠ a → heap (start u (Some tl) w).2 !! b = heap w !! b)
  ∧ pool (start u (Some tl) w).2 = pool w
  ∧ TASKS (start u (Some tl) w).2 = TASKS w
  ∧ ACCOUNTS (start u (Some tl) w).2 = ACCOUNTS w
  ∧ t_coro <$> pool (retargeted_A []) !! 0%nat = Some (Suspended 0 AtYield)
  ∧ t_coro <$> pool (retargeted_A [CallStart "A" (Some 1)]) !! 0%nat
    = Some Returned.
Proof.
  intros Ha Hh Hl Htl.
  rewrite (start_on_live u (Some tl) w a tid Ha Hl Htl).
  unfold retarget, mutate, with_heap. cbn [snd heap pool TASKS ACCOUNTS].
  split_and!; [done| | |done|done|done|vm_compute; reflexivity
               |vm_compute; reflexivity].
  - rewrite (alter_lookup_Some _ _ _ _ _ Hh). by rewrite decide_True.
  - intros b Hb. by apply list_lookup_alter_ne.
Qed.

Lemma restart_overwrites_target_witness :
  live_handle "A" (exec polling_A empty_world) = Some 0%nat
  ∧ target_level <$> account "A" (start "A" (Some 7) (exec polling_A empty_world)).2
    = Some (Some 7).
Proof.
  assert (live_handle "A" (exec polling_A empty_world) = Some 0%nat) as Hl
    by (vm_compute; reflexivity).
  assert (heap (exec polling_A empty_world) !! 0%nat
          = Some (mkAccount "A" "tokA" "User A" None true true 1 (Some 2)
                    0 0 true)) as Hh by (vm_compute; reflexivity).
  assert (ACCOUNTS (exec polling_A empty_world) !! "A" = Some 0%nat) as Ha
    by (vm_compute; reflexivity).
  split; [exact Hl|].
  destruct (restart_overwrites_target _ "A" 0 0 _ 7 Ha Hh Hl ltac:(lia))
    as (_ & Hnew & _ & _ & _ & Hacc & _).
  unfold account. rewrite Hacc, Ha, Hnew. reflexivity.
Defined.

(** * Further properties of the code *)

(** ** The registry of accounts *)

Lemma step_ACCOUNTS_frame e w :
  (∀ u tk dn, e ≠ CallAdd u tk dn) → (∀ u, e ≠ CallRemove u) →
  ACCOUNTS (step e w) = ACCOUNTS w.
Proof.
  intros Hadd Hrem. destruct e as [u tk dn|u|u tl|u|u|tid wk]; simpl.
  - by destruct (Hadd u tk dn).
  - by destruct (Hrem u).
  - destruct (start_cases u tl w); simpl; auto using retarget_ACCOUNTS.
  - unfold stop. by repeat case_match.
  - unfold reset_today. by repeat case_match.
  - apply resume_ACCOUNTS.
Qed.

Lemma remove_account_ACCOUNTS u w a :
  ACCOUNTS w !! u = Some a →
  ACCOUNTS (remove_account u w).2 = delete u (ACCOUNTS w)
  ∧ TASKS (remove_account u w).2 = delete u (TASKS w).
Proof.
  intros Ha. unfold remove_account. rewrite Ha.
  by destruct (live_handle u w).
Qed.

Lemma add_account_ok u tk dn w :
  (size (ACCOUNTS w) < MAX_ACCOUNTS)%nat → ACCOUNTS w !! u = None →
  add_account u tk dn w
  = (RespOk None,
     mkWorld (heap w ++ [new_account u tk dn])
             (<[u := length (heap w)]> (ACCOUNTS w)) (pool w) (TASKS w)).
Proof.
  intros Hsize Hu. unfold add_account.
  rewrite bool_decide_eq_false_2 by lia.
  rewrite bool_decide_eq_false_2; [done|].
  rewrite Hu. by intros [? ?].
Qed.

Lemma step_size e w :
  (size (ACCOUNTS w) ≤ MAX_ACCOUNTS)%nat →
  (size (ACCOUNTS (step e w)) ≤ MAX_ACCOUNTS)%nat.
Proof.
  intros Hw.
  destruct e as [u tk dn|u|u tl|u|u|tid wk];
    try (rewrite step_ACCOUNTS_frame by done; exact Hw); simpl.
  - unfold add_account.
    destruct (bool_decide (MAX_ACCOUNTS ≤ size (ACCOUNTS w))%nat) eqn:Hmax;
      [done|].
    destruct (bool_decide (is_Some (ACCOUNTS w !! u))) eqn:Hu; [done|].
    apply bool_decide_eq_false_1 in Hmax. apply bool_decide_eq_false_1 in Hu.
    simpl. rewrite map_size_insert_None; [lia|].
    by apply eq_None_not_Some.
  - destruct (ACCOUNTS w !! u) as [a|] eqn:Ha.
    + destruct (remove_account_ACCOUNTS u w a Ha) as [-> _].
      rewrite map_size_delete, Ha. simpl. lia.
    + unfold remove_account. by rewrite Ha.
Qed.

Lemma size_reachable tr :
  (size (ACCOUNTS (exec tr empty_world)) ≤ MAX_ACCOUNTS)%nat.
Proof.
  assert (∀ w, (size (ACCOUNTS w) ≤ MAX_ACCOUNTS)%nat →
               (size (ACCOUNTS (exec tr w)) ≤ MAX_ACCOUNTS)%nat) as H.
  { induction tr as [|e tr IH]; intros w Hw; simpl; [done|].
    by apply IH, step_size. }
  apply H. simpl. rewrite map_size_empty. lia.
Qed.

(** X1.  The registry never holds more than [MAX_ACCOUNTS] = 20 accounts,
    whatever is requested. *)
Theorem accounts_bounded (tr : list Event) :
  (size (ACCOUNTS (exec tr empty_world)) ≤ 20)%nat.
Proof.
  assert (∀ w, (size (ACCOUNTS w) ≤ MAX_ACCOUNTS)%nat →
               (size (ACCOUNTS (exec tr w)) ≤ MAX_ACCOUNTS)%nat) as H.
  { induction tr as [|e tr IH]; intros w Hw; simpl; [done|].
    by apply IH, step_size. }
  apply H. simpl. rewrite map_size_empty. unfold MAX_ACCOUNTS. lia.
Qed.

(** X2.  A request that raises [HTTPException] leaves the whole state as it
    was.  [remove_account], [stop] and [reset_today] fail exactly when the
    uid is unknown, with status 404; [start] fails with 404 when the uid is
    unknown and otherwise with 400 exactly when a target below 1 is given;
    [add_account] only fails with status 400. *)
Theorem failed_request_changes_nothing
    (w : World) (u : string) (c : Z) (d : string) (w' : World) :
  (∀ tk dn, add_account u tk dn w = (HTTPException c d, w') →
            w' = w ∧ c = 400)
  ∧ (remove_account u w = (HTTPException c d, w') ↔
     w' = w ∧ c = 404 ∧ d = "Not found" ∧ ACCOUNTS w !! u = None)
  ∧ (stop u w = (HTTPException c d, w') ↔
     w' = w ∧ c = 404 ∧ d = "Not found" ∧ ACCOUNTS w !! u = None)
  ∧ (reset_today u w = (HTTPException c d, w') ↔
     w' = w ∧ c = 404 ∧ d = "Not found" ∧ ACCOUNTS w !! u = None)
  ∧ (∀ tl, start u tl w = (HTTPException c d, w') ↔
           w' = w
           ∧ (c = 404 ∧ d = "Not found" ∧ ACCOUNTS w !! u = None
              ∨ c = 400 ∧ d = "Invalid target level"
                ∧ is_Some (ACCOUNTS w !! u) ∧ ∃ t, tl = Some t ∧ t < 1)).
Proof.
  split_and!.
  - intros tk dn. unfold add_account. repeat case_match; naive_solver.
  - unfold remove_account. destruct (ACCOUNTS w !! u); split;
      solve [by intros [= <- <- <-] | by intros (-> & -> & -> & ?)].
  - unfold stop. destruct (ACCOUNTS w !! u); split;
      solve [by intros [= <- <- <-] | by intros (-> & -> & -> & ?)].
  - unfold reset_today. destruct (ACCOUNTS w !! u); split;
      solve [by intros [= <- <- <-] | by intros (-> & -> & -> & ?)].
  - intros tl. split.
    + intros Hs. pose proof (start_cases u tl w) as Hc. rewrite Hs in Hc.
      inversion Hc; subst; naive_solver.
    + intros [-> [(-> & -> & Hu)|(-> & -> & [a Ha] & t & -> & Ht)]];
        unfold start.
      * by rewrite Hu.
      * rewrite Ha. by rewrite (proj2 (Z.ltb_lt _ _) Ht).
Qed.

Lemma failed_request_changes_nothing_witness :
  start "A" (Some 0) (exec polling_A empty_world)
  = (HTTPException 400 "Invalid target level", exec polling_A empty_world).
Proof.
  apply (failed_request_changes_nothing (exec polling_A empty_world) "A").
  split; [done|]. right. split_and!; [done|done| |].
  - exists 0%nat. vm_compute. reflexivity.
  - exists 0. split; [done|lia].
Defined.

(** ** More invariants of the supervisor *)

Lemma inv_handles_known_step e w :
  inv_handles_known w → inv_handles_known (step e w).
Proof.
  intros Hw u tid. destruct e as [u0 tk dn|u0|u0 tl|u0|u0|tid0 wk]; simpl.
  - unfold add_account. repeat case_match; simpl; try apply Hw.
    intros Hu. apply lookup_insert_is_Some. destruct (decide (u0 = u)); eauto.
  - destruct (ACCOUNTS w !! u0) as [a|] eqn:Ha.
    + destruct (remove_account_ACCOUNTS u0 w a Ha) as [-> ->].
      intros [Hne Hu]%lookup_delete_Some. rewrite lookup_delete_ne by done.
      eauto.
    + unfold remove_account. rewrite Ha. apply Hw.
  - destruct (start_cases u0 tl w) as [_|a t _ _ _|a tid0 _ _ _|a Ha _ _];
      simpl; try apply Hw.
    + rewrite retarget_TASKS, retarget_ACCOUNTS. apply Hw.
    + intros [[<- <-]|[Hne Hu]]%lookup_insert_Some; eauto.
  - unfold stop. repeat case_match; simpl; apply Hw.
  - unfold reset_today. repeat case_match; simpl; apply Hw.
  - rewrite resume_TASKS, resume_ACCOUNTS. apply Hw.
Qed.

(** The object a running piece works on is the one registered for the uid
    of its task. *)
Lemma runs_holder w tid t wk a seg :
  inv_suspended w → pool w !! tid = Some t → active t = true →
  runs w t wk a seg →
  ACCOUNTS w !! t_uid t = Some a
  ∧ (t_coro t = Created
     ∨ ∃ acc, heap w !! a = Some acc ∧ running acc = true).
Proof.
  intros Hsus Ht Hact Hruns.
  destruct Hruns as [a Hc Ha|a ok Hc|a Hc|a res Hc|a Hc]; [by auto|..];
    destruct (Hsus _ _ _ _ Ht Hact Hc) as (Ha & acc & Hh & Hr); eauto.
Qed.

(** A piece never leaves the coroutine unscheduled, and it leaves
    [running] set only when it ends at an [await]. *)
Lemma runs_not_created w t wk a seg acc :
  runs w t wk a seg → (seg acc).2 ≠ Created.
Proof.
  intros Hruns. destruct Hruns as [a Hc Ha|a ok Hc|a Hc|a res Hc|a Hc].
  - unfold on_begin, loop_head. by simpl.
  - unfold on_start_reply. by destruct ok.
  - done.
  - unfold on_poll_reply. by repeat case_match.
  - unfold loop_head. by destruct (running acc).
Qed.

Lemma runs_running w t wk a seg acc :
  runs w t wk a seg → running (seg acc).1 = true →
  ∃ p, (seg acc).2 = Suspended a p.
Proof.
  intros Hruns. destruct Hruns as [a Hc Ha|a ok Hc|a Hc|a res Hc|a Hc].
  - unfold on_begin, loop_head. simpl. eauto.
  - unfold on_start_reply. destruct ok; simpl; [eauto|done].
  - simpl. eauto.
  - unfold on_poll_reply. repeat case_match; simpl; eauto; done.
  - unfold loop_head. destruct (running acc) eqn:Hr; simpl; [eauto|].
    by rewrite Hr.
Qed.

Lemma inv_created_step e w :
  wf w → inv_created w → inv_created (step e w).
Proof.
  intros [Hacc Htasks Hreg Hsus] Hw tid t.
  destruct e as [u tk dn|u|u tl|u|u|tid0 wk]; simpl.
  - unfold add_account.
    destruct (bool_decide (MAX_ACCOUNTS ≤ size (ACCOUNTS w))%nat);
      [apply Hw|].
    destruct (bool_decide (is_Some (ACCOUNTS w !! u))) eqn:Hu; [apply Hw|].
    apply bool_decide_eq_false_1 in Hu. simpl. intros Ht Hact Hco.
    destruct (Hw _ _ Ht Hact Hco) as (a & acc & Ha & Hh & Hr).
    exists a, acc. split_and!; [|by apply lookup_app_l_Some|done].
    rewrite lookup_insert_ne; [done|]. intros ->. apply Hu. eauto.
  - unfold remove_account.
    destruct (ACCOUNTS w !! u) as [a0|] eqn:Hu; simpl; [|apply Hw].
    assert (∀ t1, pool w !! tid = Some t1 → active t1 = true →
                  t_coro t1 = Created → live_handle u w ≠ Some tid →
                  ∀ h : list Account,
                    (∀ b : nat, b ≠ a0 → h !! b = heap w !! b) →
                  ∃ a acc, delete u (ACCOUNTS w) !! t_uid t1 = Some a
                           ∧ h !! a = Some acc ∧ running acc = true) as Hkeep.
    { intros t1 Ht1 Hact Hco Hnl h Hh.
      destruct (Hw _ _ Ht1 Hact Hco) as (a & acc & Ha & Hha & Hr).
      assert (t_uid t1 ≠ u) as Hne.
      { intros Heq. apply Hnl. rewrite <- Heq. by apply active_live_handle. }
      exists a, acc. split_and!; [by rewrite lookup_delete_ne| |done].
      rewrite Hh; [done|]. intros ->. apply Hne. by eapply holder_uid. }
    destruct (live_handle u w) as [tid0|] eqn:Hl; simpl.
    + intros (t0 & Ht0 & ->)%alter_lookup_inv Hact.
      case_decide as Htid; [by rewrite active_cancel in Hact|].
      intros Hco. apply (Hkeep t0); auto; [congruence|].
      intros b Hb. by apply list_lookup_alter_ne.
    + intros Ht Hact Hco. by apply (Hkeep t).
  - destruct (start_cases u tl w) as [_|a0 t0 _ _ _|a0 tid0 _ _ _|a0 Hu _ Hl];
      simpl; try apply Hw.
    + rewrite retarget_pool, retarget_ACCOUNTS. intros Ht Hact Hco.
      destruct (Hw _ _ Ht Hact Hco) as (a & acc & Ha & Hh & Hr).
      exists a. destruct tl; simpl; [|by eauto].
      destruct (alter_running_lookup (set_target_level (Some z)) a0
                  (heap w) a acc) as (acc' & ? & ?); eauto.
    + assert (∀ a acc, heap w !! a = Some acc →
                ∃ acc1, heap (retarget a0 tl w) !! a = Some acc1
                        ∧ (running acc = true → running acc1 = true))
        as Hret.
      { intros a acc Hh. destruct tl; simpl; [|by eauto].
        eexists. split; [by apply alter_lookup_Some|]. by case_decide. }
      intros [[_ Ht]|[-> <-]]%lookup_snoc_Some Hact Hco.
      * destruct (Hw _ _ Ht Hact Hco) as (a & acc & Ha & Hh & Hr).
        destruct (Hret _ _ Hh) as (acc1 & Hh1 & Hr1).
        exists a.
        destruct (alter_running_lookup (set_running true) a0
                    (heap (retarget a0 tl w)) a acc1)
          as (acc' & ? & ?); eauto.
      * simpl. destruct (Hacc _ _ Hu) as (acc & Hh & _).
        destruct (Hret _ _ Hh) as (acc1 & Hh1 & _).
        exists a0, (set_running true acc1). split_and!; [done| |done].
        rewrite (alter_lookup_Some _ _ _ _ _ Hh1). by rewrite decide_True.
  - unfold stop.
    destruct (ACCOUNTS w !! u) as [a0|] eqn:Hu; simpl; [|apply Hw].
    rewrite live_handle_mutate.
    assert (∀ t1, pool w !! tid = Some t1 → active t1 = true →
                  t_coro t1 = Created → live_handle u w ≠ Some tid →
                  ∃ a acc, ACCOUNTS w !! t_uid t1 = Some a
                           ∧ alter (set_running false) a0 (heap w) !! a
                             = Some acc
                           ∧ running acc = true) as Hkeep.
    { intros t1 Ht1 Hact Hco Hnl.
      destruct (Hw _ _ Ht1 Hact Hco) as (a & acc & Ha & Hh & Hr).
      exists a, acc. split_and!; [done| |done].
      rewrite list_lookup_alter_ne; [done|]. intros <-. apply Hnl.
      rewrite (holder_uid _ _ _ _ Hacc Hu Ha).
      by apply active_live_handle. }
    destruct (live_handle u w) as [tid0|] eqn:Hl; simpl.
    + intros (t0 & Ht0 & ->)%alter_lookup_inv Hact.
      case_decide as Htid; [by rewrite active_cancel in Hact|].
      intros Hco. apply (Hkeep t0); auto. congruence.
    + intros Ht Hact Hco. by apply (Hkeep t).
  - unfold reset_today.
    destruct (ACCOUNTS w !! u) as [a0|] eqn:Hu; simpl; [|apply Hw].
    intros Ht Hact Hco.
    destruct (Hw _ _ Ht Hact Hco) as (a & acc & Ha & Hh & Hr).
    exists a.
    destruct (alter_running_lookup (set_today_xp 0) a0 (heap w) a acc)
      as (acc' & ? & ?); eauto.
  - destruct (resume_cases tid0 wk w)
      as [|t0 Ht0 Hd0 Hc0|t0 Ht0 Hco0 Hc0 Ha0|t0 a0 acc0 seg Ht0 Hact0 Hh0 Hruns];
      simpl; [apply Hw| | |].
    + intros (t1 & Ht1 & ->)%alter_lookup_inv Hact Hco.
      case_decide as Htid; [done|]. by apply (Hw tid t1).
    + intros (t1 & Ht1 & ->)%alter_lookup_inv Hact Hco.
      case_decide as Htid; [done|]. by apply (Hw tid t1).
    + destruct (runs_holder _ _ _ _ _ _ Hsus Ht0 Hact0 Hruns) as [Hu0 _].
      intros (t1 & Ht1 & ->)%alter_lookup_inv Hact.
      case_decide as Htid.
      * subst tid0. simpl. intros Hco.
        by destruct (runs_not_created _ _ _ _ _ acc0 Hruns).
      * intros Hco.
        destruct (Hw _ _ Ht1 Hact Hco) as (a & acc & Ha & Hh & Hr).
        exists a, acc. split_and!; [done| |done].
        rewrite list_lookup_insert_ne; [done|]. intros <-. apply Htid.
        pose proof (holder_uid _ _ _ _ Hacc Hu0 Ha) as Heq.
        pose proof (Hreg _ _ Ht0 Hact0) as Hr0.
        pose proof (Hreg _ _ Ht1 Hact) as Hr1. congruence.
Qed.

(** Two uids never share a handle. *)
Lemma handle_uid w u u' tid :
  inv_tasks w → TASKS w !! u = Some tid → TASKS w !! u' = Some tid → u = u'.
Proof.
  intros Htasks Hu Hu'.
  destruct (Htasks _ _ Hu) as (t & Ht & <-).
  destruct (Htasks _ _ Hu') as (t' & Ht' & <-). congruence.
Qed.

Lemma inv_running_step e w :
  wf w → inv_running w → inv_running (step e w).
Proof.
  intros [Hacc Htasks Hreg Hsus] Hw u' a acc.
  destruct e as [u tk dn|u|u tl|u|u|tid0 wk]; simpl.
  - unfold add_account.
    destruct (bool_decide (MAX_ACCOUNTS ≤ size (ACCOUNTS w))%nat);
      [apply Hw|].
    destruct (bool_decide (is_Some (ACCOUNTS w !! u))) eqn:Hu; [apply Hw|].
    simpl. intros [[<- <-]|[Hne Ha]]%lookup_insert_Some.
    + rewrite list_lookup_middle by done. by intros [= <-].
    + destruct (Hacc _ _ Ha) as (acc1 & Hh1 & _).
      rewrite (lookup_app_l_Some _ _ _ _ Hh1). intros [= <-]. by eapply Hw.
  - destruct (ACCOUNTS w !! u) as [a0|] eqn:Hu;
      [|unfold remove_account; rewrite Hu; apply Hw].
    destruct (remove_account_ACCOUNTS u w a0 Hu) as [-> ->].
    intros [Hne Ha]%lookup_delete_Some.
    assert (a ≠ a0) as Hna.
    { intros ->. apply Hne. by eapply holder_uid. }
    unfold remove_account. rewrite Hu.
    destruct (live_handle u w) as [tid0|] eqn:Hl; simpl.
    + rewrite list_lookup_alter_ne by done. intros Hh Hr.
      destruct (Hw _ _ _ Ha Hh Hr) as (tid & t & Ht' & Ht & Hact).
      exists tid, t. split_and!; [by rewrite lookup_delete_ne| |done].
      rewrite list_lookup_alter_ne; [done|]. intros ->.
      apply live_handle_Some in Hl as (? & Hu0 & _).
      apply Hne. by eapply handle_uid.
    + intros Hh Hr.
      destruct (Hw _ _ _ Ha Hh Hr) as (tid & t & Ht' & Ht & Hact).
      exists tid, t. by rewrite lookup_delete_ne.
  - destruct (start_cases u tl w) as [_|a0 t0 _ _ _|a0 tid0 Hu _ _|a0 Hu _ Hl];
      simpl; try apply Hw.
    + rewrite retarget_pool, retarget_ACCOUNTS, retarget_TASKS.
      intros Ha Hh Hr. destruct tl as [t|]; simpl in Hh; [|by eapply Hw].
      apply alter_lookup_inv in Hh as (acc1 & Hh1 & ->).
      apply (Hw _ _ acc1 Ha Hh1). by case_decide.
    + intros Ha Hh Hr. destruct (decide (u' = u)) as [->|Hne].
      * exists (length (pool w)), (mkTask u Created false).
        split_and!; [apply lookup_insert_eq|by apply list_lookup_middle|done].
      * assert (a ≠ a0) as Hna.
        { intros ->. apply Hne. by eapply holder_uid. }
        rewrite list_lookup_alter_ne in Hh by done.
        assert (heap w !! a = Some acc) as Hh0.
        { destruct tl; simpl in Hh; [|done].
          by rewrite list_lookup_alter_ne in Hh. }
        destruct (Hw _ _ _ Ha Hh0 Hr) as (tid & t & Ht' & Ht & Hact).
        exists tid, t.
        split_and!; [by rewrite lookup_insert_ne|
                     by apply lookup_app_l_Some|done].
  - unfold stop.
    destruct (ACCOUNTS w !! u) as [a0|] eqn:Hu; simpl; [|apply Hw].
    rewrite live_handle_mutate.
    assert (ACCOUNTS w !! u' = Some a →
            alter (set_running false) a0 (heap w) !! a = Some acc →
            running acc = true →
            u' ≠ u ∧ ∃ tid t, TASKS w !! u' = Some tid
                              ∧ pool w !! tid = Some t ∧ active t = true)
      as Hkeep.
    { intros Ha (acc1 & Hh1 & ->)%alter_lookup_inv Hr.
      case_decide as Heq; [done|].
      split; [|by eapply Hw]. intros ->. congruence. }
    destruct (live_handle u w) as [tid0|] eqn:Hl; simpl; intros Ha Hh Hr;
      destruct (Hkeep Ha Hh Hr) as (Hne & tid & t & Ht' & Ht & Hact);
      [|by eauto].
    exists tid, t. split_and!; [done| |done].
    rewrite list_lookup_alter_ne; [done|]. intros ->.
    apply live_handle_Some in Hl as (? & Hu0 & _).
    apply Hne. by eapply handle_uid.
  - unfold reset_today.
    destruct (ACCOUNTS w !! u) as [a0|] eqn:Hu; simpl; [|apply Hw].
    intros Ha (acc1 & Hh1 & ->)%alter_lookup_inv Hr.
    apply (Hw _ _ acc1 Ha Hh1). by case_decide.
  - destruct (resume_cases tid0 wk w)
      as [|t0 Ht0 Hd0 Hc0|t0 Ht0 Hco0 Hc0 Ha0|t0 a0 acc0 seg Ht0 Hact0 Hh0 Hruns];
      simpl; [apply Hw| | |].
    + intros Ha Hh Hr.
      destruct (Hw _ _ _ Ha Hh Hr) as (tid & t & Ht' & Ht & Hact).
      exists tid, t. split_and!; [done| |done].
      rewrite list_lookup_alter_ne; [done|]. intros ->.
      apply active_inv in Hact as [_ Hc]. congruence.
    + intros Ha Hh Hr.
      destruct (Hw _ _ _ Ha Hh Hr) as (tid & t & Ht' & Ht & Hact).
      exists tid, t. split_and!; [done| |done].
      rewrite list_lookup_alter_ne; [done|]. intros ->.
      destruct (Htasks _ _ Ht') as (t1 & Ht1 & Hu1).
      assert (t1 = t0) as -> by congruence. congruence.
    + destruct (runs_holder _ _ _ _ _ _ Hsus Ht0 Hact0 Hruns) as [Hu0 _].
      pose proof (Hreg _ _ Ht0 Hact0) as Hr0.
      intros Ha Hh Hr. destruct (decide (a = a0)) as [->|Hna].
      * rewrite list_lookup_insert_eq in Hh by by eapply lookup_lt_Some.
        injection Hh as <-.
        destruct (runs_running _ _ _ _ _ acc0 Hruns Hr) as [p Hp].
        rewrite (holder_uid _ _ _ _ Hacc Ha Hu0).
        exists tid0, (set_coro (Suspended a0 p) t0).
        split_and!; [done| |by apply active_set_coro].
        by rewrite list_lookup_alter_eq, Ht0, Hp.
      * rewrite list_lookup_insert_ne in Hh by done.
        destruct (Hw _ _ _ Ha Hh Hr) as (tid & t & Ht' & Ht & Hact).
        exists tid, t. split_and!; [done| |done].
        rewrite list_lookup_alter_ne; [done|]. intros ->.
        apply Hna. pose proof (handle_uid _ _ _ _ Htasks Ht' Hr0) as Heq.
        congruence.
Qed.

Lemma wf_all_empty : wf_all empty_world.
Proof. split; [apply wf_empty|..]; intros ?; intros; done. Qed.

Lemma wf_all_step e w : wf_all w → wf_all (step e w).
Proof.
  intros [Hwf Hk Hc Hr]. split.
  - by apply wf_step.
  - by apply inv_handles_known_step.
  - by apply inv_created_step.
  - by apply inv_running_step.
Qed.

Lemma wf_all_exec tr w : wf_all w → wf_all (exec tr w).
Proof.
  revert w. induction tr as [|e tr IH]; intros w Hw; simpl; [done|].
  by apply IH, wf_all_step.
Qed.

Lemma wf_all_reachable tr : wf_all (exec tr empty_world).
Proof. apply wf_all_exec, wf_all_empty. Qed.

(** ** The [running] flag and the loops *)

Lemma count_active_pos u w :
  (1 ≤ count_active u w)%nat →
  ∃ tid t, pool w !! tid = Some t ∧ t_uid t = u ∧ active t = true.
Proof.
  unfold count_active. intros Hc.
  destruct (filter _ (pool w)) as [|t l] eqn:Hf; [simpl in Hc; lia|].
  assert (t ∈ filter (λ t, t_uid t = u ∧ active t = true) (pool w))
    as [[Hu Hact] [tid Ht]%list_elem_of_lookup]%list_elem_of_filter
    by (rewrite Hf; left).
  eauto.
Qed.

(** An active loop holds the object registered for its uid, with
    [running] set. *)
Lemma active_holder w tid t :
  wf_all w → pool w !! tid = Some t → active t = true →
  ∃ a acc, ACCOUNTS w !! t_uid t = Some a ∧ heap w !! a = Some acc
           ∧ running acc = true
           ∧ (t_coro t = Created ∨ ∃ p, t_coro t = Suspended a p).
Proof.
  intros [Hwf _ Hcr _] Ht Hact.
  destruct (t_coro t) as [|a p| | |] eqn:Hco.
  - destruct (Hcr _ _ Ht Hact Hco) as (a & acc & ? & ? & ?).
    exists a, acc. auto.
  - destruct (wf_suspended _ Hwf _ _ _ _ Ht Hact Hco) as (? & acc & ? & ?).
    exists a, acc. eauto 6.
  - apply active_inv in Hact as [Hd _]. unfold done in Hd. by rewrite Hco in Hd.
  - apply active_inv in Hact as [Hd _]. unfold done in Hd. by rewrite Hco in Hd.
  - apply active_inv in Hact as [Hd _]. unfold done in Hd. by rewrite Hco in Hd.
Qed.

(** X3.  In every state of every run, the [running] flag of a registered
    account is set exactly when one loop of its uid can still run: [start]
    sets it with the spawn, and every way a loop ends or is cancelled
    clears it. *)
Theorem running_iff_active_loop (tr : list Event) (u : string) (acc : Account) :
  account u (exec tr empty_world) = Some acc →
  running acc = true ↔ count_active u (exec tr empty_world) = 1%nat.
Proof.
  set (w := exec tr empty_world).
  assert (wf_all w) as Hall by apply wf_all_reachable.
  pose proof (wfa_wf _ Hall) as Hwf.
  unfold account. destruct (ACCOUNTS w !! u) as [a|] eqn:Ha; [|done].
  intros Hh.
  pose proof (count_active_le_1 u w (wf_registered _ Hwf)) as Hle. split.
  - intros Hr.
    destruct (wfa_running _ Hall _ _ _ Ha Hh Hr) as (tid & t & Ht' & Ht & Hact).
    destruct (wf_tasks _ Hwf _ _ Ht') as (t1 & Ht1 & Hu1).
    assert (t1 = t) as -> by congruence.
    pose proof (count_active_ge_1 u w tid t Ht Hu1 Hact). lia.
  - intros Hc.
    destruct (count_active_pos u w) as (tid & t & Ht & Hu & Hact); [lia|].
    destruct (active_holder w tid t Hall Ht Hact) as (a1 & acc1 & Ha1 & Hh1 & Hr & _).
    rewrite Hu in Ha1. congruence.
Qed.

Lemma running_iff_active_loop_witness :
  count_active "C" polling_C = 1%nat.
Proof.
  apply (running_iff_active_loop
           [ CallAdd "C" "tokC" ""; CallStart "C" None; Resume 0 Begin;
             Resume 0 (StartReplied true); Resume 0 TimerFired ] "C"
           (mkAccount "C" "tokC" "User C" None true true 1 None 0 0 true)).
  - vm_compute. reflexivity.
  - reflexivity.
Defined.

Lemma runs_not_raised w t wk a seg acc :
  runs w t wk a seg → (seg acc).2 ≠ Raised.
Proof.
  intros Hruns. destruct Hruns as [a Hc Ha|a ok Hc|a Hc|a res Hc|a Hc].
  - unfold on_begin, loop_head. by simpl.
  - unfold on_start_reply. by destruct ok.
  - done.
  - unfold on_poll_reply. by repeat case_match.
  - unfold loop_head. by destruct (running acc).
Qed.

Lemma t_coro_cancel t : t_coro (cancel t) = t_coro t.
Proof. unfold cancel. by destruct (done t). Qed.

Lemma no_raise_step e w :
  wf_all w →
  (∀ tid t, pool w !! tid = Some t → t_coro t ≠ Raised) →
  ∀ tid t, pool (step e w) !! tid = Some t → t_coro t ≠ Raised.
Proof.
  intros Hall Hw tid t.
  destruct e as [u tk dn|u|u tl|u|u|tid0 wk]; simpl.
  - unfold add_account. repeat case_match; simpl; apply Hw.
  - unfold remove_account. repeat case_match; simpl; try apply Hw.
    intros (t0 & Ht0 & ->)%alter_lookup_inv.
    case_decide; rewrite ?t_coro_cancel; eauto.
  - destruct (start_cases u tl w); simpl; rewrite ?retarget_pool;
      try apply Hw.
    intros [[_ Ht]|[_ <-]]%lookup_snoc_Some; [eauto|done].
  - unfold stop. repeat case_match; simpl; try apply Hw.
    intros (t0 & Ht0 & ->)%alter_lookup_inv.
    case_decide; rewrite ?t_coro_cancel; eauto.
  - unfold reset_today. repeat case_match; simpl; apply Hw.
  - destruct (resume_cases tid0 wk w)
      as [|t0 Ht0 Hd0 Hc0|t0 Ht0 Hco0 Hc0 Ha0|t0 a0 acc0 seg Ht0 Hact0 Hh0 Hruns];
      simpl; [apply Hw| | |];
      intros (t1 & Ht1 & ->)%alter_lookup_inv; case_decide; eauto.
    + subst. assert (active t0 = true) as Hact.
      { unfold active, done. by rewrite Hco0, Hc0. }
      destruct (wfa_created _ Hall _ _ Ht0 Hact Hco0) as (a & acc & Ha & _).
      congruence.
    + simpl. by eapply runs_not_raised.
Qed.

(** X4.  The lookup [acc = ACCOUNTS[uid]] at the entry of [account_loop]
    never raises [KeyError]: no task of any run ends by an exception.  A
    loop that is scheduled for the first time sets [online], [running] and
    [matchmaking] on the registered account and waits for the answer of
    its submission. *)
Theorem loop_entry_never_fails (tr : list Event) (tid : nat) (t : Task) :
  pool (exec tr empty_world) !! tid = Some t →
  t_coro t ≠ Raised
  ∧ (active t = true → t_coro t = Created →
     ∃ a acc,
       account (t_uid t) (exec tr empty_world) = Some acc
       ∧ ACCOUNTS (exec tr empty_world) !! t_uid t = Some a
       ∧ heap (resume tid Begin (exec tr empty_world)) !! a
         = Some (set_matchmaking true (set_running true (set_online true acc)))
       ∧ pool (resume tid Begin (exec tr empty_world)) !! tid
         = Some (set_coro (Suspended a AtStartMatch) t)).
Proof.
  intros Ht. split.
  - revert tid t Ht. induction tr as [|e tr IH] using rev_ind; [done|].
    intros tid t.
    assert (∀ tr1 tr2 w, exec (tr1 ++ tr2) w = exec tr2 (exec tr1 w)) as Happ.
    { induction tr1 as [|e1 tr1 IH1]; intros tr2 w; simpl; [done|apply IH1]. }
    rewrite Happ. simpl. apply no_raise_step; [apply wf_all_reachable|done].
  - intros Hact Hco.
    destruct (wfa_created _ (wf_all_reachable tr) _ _ Ht Hact Hco)
      as (a & acc & Ha & Hh & Hr).
    exists a, acc. unfold account. rewrite Ha.
    rewrite (resume_run tid Begin _ t a acc (on_begin a) Ht Hact Hh);
      [|by constructor].
    unfold on_begin, loop_head. simpl. split_and!; [done|done| |].
    + apply list_lookup_insert_eq. by eapply lookup_lt_Some.
    + by rewrite list_lookup_alter_eq, Ht.
Qed.

Lemma loop_entry_never_fails_witness :
  pool (exec [CallAdd "B" "tokB" ""; CallStart "B" None] empty_world) !! 0%nat
  = Some (mkTask "B" Created false)
  ∧ Created ≠ Raised.
Proof.
  assert (pool (exec [CallAdd "B" "tokB" ""; CallStart "B" None] empty_world)
            !! 0%nat = Some (mkTask "B" Created false)) as Ht
    by (vm_compute; reflexivity).
  split; [exact Ht|].
  exact (proj1 (loop_entry_never_fails _ 0 _ Ht)).
Defined.

(** ** Adding accounts *)

Lemma unknown_uid_idle w u :
  wf_all w → ACCOUNTS w !! u = None → TASKS w !! u = None.
Proof.
  intros Hall Hu. destruct (TASKS w !! u) as [tid|] eqn:Ht; [|done].
  destruct (wfa_handles_known _ Hall _ _ Ht) as [a Ha]. congruence.
Qed.

(** X5.  What [add_account] does.  With 20 accounts registered it fails
    with "Max 20 accounts", also for a uid that exists; below that it fails
    with "Account already exists" for a registered uid; otherwise it
    registers a fresh account (level 1, no score, no target, all flags
    clear) that can be looked up at once, leaves every other account, every
    task and every handle alone, and the new account has no loop. *)
Theorem add_account_registers
    (tr : list Event) (u tk dn : string) :
  let w := exec tr empty_world in
  ((20 ≤ size (ACCOUNTS w))%nat →
   add_account u tk dn w = (HTTPException 400 "Max 20 accounts", w))
  ∧ ((size (ACCOUNTS w) < 20)%nat → is_Some (ACCOUNTS w !! u) →
     add_account u tk dn w = (HTTPException 400 "Account already exists", w))
  ∧ ((size (ACCOUNTS w) < 20)%nat → ACCOUNTS w !! u = None →
     (add_account u tk dn w).1 = RespOk None
     ∧ account u (add_account u tk dn w).2
       = Some (mkAccount u tk (display_name (new_account u tk dn)) None
                 false false 1 None 0 0 false)
     ∧ (∀ u', u' ≠ u →
              account u' (add_account u tk dn w).2 = account u' w)
     ∧ size (ACCOUNTS (add_account u tk dn w).2) = S (size (ACCOUNTS w))
     ∧ pool (add_account u tk dn w).2 = pool w
     ∧ TASKS (add_account u tk dn w).2 = TASKS w
     ∧ idle u (add_account u tk dn w).2 = true
     ∧ count_active u (add_account u tk dn w).2 = 0%nat).
Proof.
  intros w.
  assert (wf_all w) as Hall by apply wf_all_reachable.
  pose proof (wfa_wf _ Hall) as Hwf.
  split_and!.
  - intros Hmax. unfold add_account.
    by rewrite bool_decide_eq_true_2 by (unfold MAX_ACCOUNTS; lia).
  - intros Hsize Hu. unfold add_account.
    rewrite bool_decide_eq_false_2 by (unfold MAX_ACCOUNTS; lia).
    by rewrite bool_decide_eq_true_2.
  - intros Hsize Hu.
    rewrite add_account_ok by (done || unfold MAX_ACCOUNTS; lia).
    cbn [fst snd pool TASKS ACCOUNTS].
    assert (TASKS w !! u = None) as Hnt by by apply unknown_uid_idle.
    assert (idle u (mkWorld (heap w ++ [new_account u tk dn])
                      (<[u := length (heap w)]> (ACCOUNTS w))
                      (pool w) (TASKS w)) = true) as Hidle.
    { unfold idle, live_handle, handle. cbn [TASKS]. by rewrite Hnt. }
    split_and!; try done.
    + unfold account. cbn [ACCOUNTS heap]. rewrite lookup_insert_eq.
      by rewrite list_lookup_middle.
    + intros u' Hne. unfold account. cbn [ACCOUNTS heap].
      rewrite lookup_insert_ne by done.
      destruct (ACCOUNTS w !! u') as [a|] eqn:Ha; [|done].
      destruct (wf_accounts _ Hwf _ _ Ha) as (acc & Hh & _).
      by rewrite (lookup_app_l_Some _ _ _ _ Hh).
    + by apply map_size_insert_None.
    + apply idle_no_active; [|done]. exact (wf_registered _ Hwf).
Qed.

Lemma add_account_registers_witness :
  account "Z9" (add_account "Z9" "tok" "Zed" (exec polling_A empty_world)).2
  = Some (mkAccount "Z9" "tok" "Zed" None false false 1 None 0 0 false).
Proof.
  destruct (add_account_registers polling_A "Z9" "tok" "Zed") as (_ & _ & H).
  destruct H as (_ & H & _).
  - vm_compute. lia.
  - vm_compute. reflexivity.
  - exact H.
Defined.

Lemma string_of_list_ascii_app l1 l2 :
  String.string_of_list_ascii (l1 ++ l2)
  = String.string_of_list_ascii l1 +:+ String.string_of_list_ascii l2.
Proof. induction l1 as [|c l1 IH]; simpl; [done|by rewrite IH]. Qed.

Lemma chars_cons c l :
  chars (c :: l) = ((if is_continuation c then 0 else 1) + chars l)%nat.
Proof.
  unfold chars. rewrite filter_cons.
  destruct (is_continuation c); by case_decide.
Qed.

Lemma chars_reverse l : chars (reverse l) = chars l.
Proof. unfold chars. by rewrite reverse_Permutation. Qed.

Lemma last_chars_rev_prefix l n : ∃ k, l = last_chars_rev l n ++ k.
Proof.
  revert n. induction l as [|c l IH]; intros n; [by exists []|].
  destruct n as [|n]; [by eexists|]. simpl.
  destruct (IH (if is_continuation c then S n else n)) as [k Hk].
  exists k. by rewrite <- Hk.
Qed.

Lemma chars_last_chars_rev l n :
  chars (last_chars_rev l n) = (n `min` chars l)%nat.
Proof.
  revert n. induction l as [|c l IH]; intros n; [by destruct n|].
  destruct n as [|n]; [done|]. cbn [last_chars_rev]. rewrite !chars_cons, IH.
  destruct (is_continuation c); lia.
Qed.

Lemma last_lead_chars (l : list ascii) c :
  last l = Some c → is_continuation c = false → (1 ≤ chars l)%nat.
Proof.
  induction l as [|c0 l IH]; [done|]. rewrite chars_cons.
  destruct l as [|c1 l]; [|intros; specialize (IH ltac:(done) ltac:(done)); lia].
  simpl. intros [= ->] ->. lia.
Qed.

Lemma last_chars_rev_all l n :
  (∀ c, last l = Some c → is_continuation c = false) →
  (chars l ≤ n)%nat → last_chars_rev l n = l.
Proof.
  revert n. induction l as [|c l IH]; intros n Hlast Hn; [by destruct n|].
  rewrite chars_cons in Hn.
  destruct l as [|c1 l].
  - specialize (Hlast c eq_refl). rewrite Hlast in Hn.
    destruct n; [simpl in Hn; lia|done].
  - assert (1 ≤ chars (c1 :: l))%nat as Hpos.
    { destruct (last (c1 :: l)) as [c2|] eqn:Hl2; [|by apply last_None in Hl2].
      eapply last_lead_chars; [done|]. by apply Hlast. }
    destruct n as [|n]; [lia|].
    change (c :: last_chars_rev (c1 :: l)
                   (if is_continuation c then S n else n) = c :: c1 :: l).
    f_equal. apply IH; [exact Hlast|].
    destruct (is_continuation c); lia.
Qed.

Lemma last_chars_rev_last l n :
  (∀ c, last l = Some c → is_continuation c = false) →
  ∀ c, last (last_chars_rev l n) = Some c → is_continuation c = false.
Proof.
  revert n. induction l as [|c0 l IH]; intros n Hlast c; [by destruct n|].
  destruct n as [|n]; [done|]. simpl.
  destruct (last_chars_rev l (if is_continuation c0 then S n else n))
    as [|c1 l1] eqn:Hrec.
  - intros [= <-]. destruct l as [|c1 l]; [by apply Hlast|].
    destruct (is_continuation c0) eqn:Hc0; [|done].
    simpl in Hrec. discriminate.
  - intros Hc. change (last (c1 :: l1) = Some c) in Hc. rewrite <- Hrec in Hc.
    destruct l as [|c2 l]; [done|]. exact (IH _ Hlast c Hc).
Qed.

(** X6.  When no display name is given, [add_account] stores "User "
    followed by [uid[-4:]]: the end of the uid made of its last four
    characters (code points), beginning at a character boundary; it is the
    whole uid when the uid has at most four characters. *)
Theorem default_display_name (tr : list Event) (u tk : string) :
  let w := exec tr empty_world in
  ((size (ACCOUNTS w) < 20)%nat → ACCOUNTS w !! u = None →
   display_name <$> account u (add_account u tk "" w).2
   = Some ("User " +:+ last4 u))
  ∧ (∃ p, u = p +:+ last4 u)
  ∧ chars (String.list_ascii_of_string (last4 u))
    = (4 `min` chars (String.list_ascii_of_string u))%nat
  ∧ (well_started (String.list_ascii_of_string u) →
     well_started (String.list_ascii_of_string (last4 u))
     ∧ ((chars (String.list_ascii_of_string u) ≤ 4)%nat → last4 u = u)).
Proof.
  intros w. unfold last4, last_chars.
  set (l := String.list_ascii_of_string u).
  rewrite !String.list_ascii_of_string_of_list_ascii.
  split_and!.
  - intros Hsize Hu.
    rewrite add_account_ok by (done || unfold MAX_ACCOUNTS; lia).
    unfold account. cbn [snd ACCOUNTS heap].
    rewrite lookup_insert_eq, list_lookup_middle by done. done.
  - destruct (last_chars_rev_prefix (reverse l) 4) as [k Hk].
    exists (String.string_of_list_ascii (reverse k)).
    rewrite <- string_of_list_ascii_app, <- reverse_app, <- Hk.
    rewrite reverse_involutive. unfold l.
    by rewrite String.string_of_list_ascii_of_string.
  - by rewrite chars_reverse, chars_last_chars_rev, chars_reverse.
  - intros Hstart.
    assert (∀ c, last (reverse l) = Some c → is_continuation c = false)
      as Hlast by (intros c; rewrite last_reverse; apply Hstart).
    split.
    + intros c. rewrite head_reverse. by apply last_chars_rev_last.
    + intros Hlen. rewrite last_chars_rev_all;
        [|done|by rewrite chars_reverse].
      rewrite reverse_involutive. unfold l.
      by rewrite String.string_of_list_ascii_of_string.
Qed.

Lemma default_display_name_witness :
  display_name <$> account "player-ééééé"
                     (add_account "player-ééééé" "tok" ""
                        (exec polling_A empty_world)).2
  = Some "User éééé"%string.
Proof.
  destruct (default_display_name polling_A "player-ééééé" "tok") as (H & _).
  rewrite H.
  - vm_compute. reflexivity.
  - vm_compute. lia.
  - vm_compute. reflexivity.
Defined.

(** ** Accounts do not interfere *)

Lemma account_frame w w' u :
  ACCOUNTS w' !! u = ACCOUNTS w !! u →
  (∀ a, ACCOUNTS w !! u = Some a → heap w' !! a = heap w !! a) →
  account u w' = account u w.
Proof.
  intros Hacc Hheap. unfold account. rewrite Hacc.
  destruct (ACCOUNTS w !! u) as [a|] eqn:Ha; [|done]. by apply Hheap.
Qed.

(** X7.  Every event is about one uid (the argument of the request, or the
    uid of the scheduled task) and changes no field of the account of any
    other uid: requests and loops of different accounts do not interfere. *)
Theorem accounts_isolated (tr : list Event) (e : Event) (u' : string) :
  event_uid e (exec tr empty_world) ≠ Some u' →
  account u' (step e (exec tr empty_world)) = account u' (exec tr empty_world).
Proof.
  set (w := exec tr empty_world).
  assert (wf_all w) as Hall by apply wf_all_reachable.
  pose proof (wfa_wf _ Hall) as [Hacc Htasks Hreg Hsus].
  intros Hne.
  destruct e as [u tk dn|u|u tl|u|u|tid0 wk]; simpl in *.
  - unfold add_account. repeat case_match; simpl; try done.
    apply account_frame; simpl.
    + apply lookup_insert_ne. congruence.
    + intros a Ha. destruct (Hacc _ _ Ha) as (acc & Hh & _).
      rewrite Hh. by apply lookup_app_l_Some.
  - destruct (ACCOUNTS w !! u) as [a0|] eqn:Hu;
      [|unfold remove_account; by rewrite Hu].
    apply account_frame.
    + destruct (remove_account_ACCOUNTS u w a0 Hu) as [-> _].
      apply lookup_delete_ne. congruence.
    + intros a Ha. unfold remove_account. rewrite Hu.
      destruct (live_handle u w); simpl; [|done].
      apply list_lookup_alter_ne. intros ->.
      apply Hne. f_equal. by eapply holder_uid.
  - destruct (start_cases u tl w) as [_|a0 t0 _ _ _|a0 tid Hu _ _|a0 Hu _ _];
      simpl; try done; apply account_frame; simpl;
      rewrite ?retarget_ACCOUNTS; try done; intros a Ha;
      assert (a0 ≠ a) as Hna
        by (intros ->; apply Hne; f_equal; by eapply holder_uid).
    + destruct tl; simpl; [|done]. by apply list_lookup_alter_ne.
    + rewrite list_lookup_alter_ne by done.
      destruct tl; simpl; [|done]. by apply list_lookup_alter_ne.
  - unfold stop. destruct (ACCOUNTS w !! u) as [a0|] eqn:Hu; [|done].
    apply account_frame.
    + simpl. by destruct (live_handle _ _).
    + intros a Ha.
      assert (a0 ≠ a) as Hna
        by (intros ->; apply Hne; f_equal; by eapply holder_uid).
      simpl. destruct (live_handle _ _); simpl;
        by apply list_lookup_alter_ne.
  - unfold reset_today. destruct (ACCOUNTS w !! u) as [a0|] eqn:Hu; [|done].
    apply account_frame; [done|]. intros a Ha. simpl.
    apply list_lookup_alter_ne. intros ->.
    apply Hne. f_equal. by eapply holder_uid.
  - destruct (resume_cases tid0 wk w)
      as [|t0 Ht0 Hd0 Hc0|t0 Ht0 Hco0 Hc0 Ha0|t0 a0 acc0 seg Ht0 Hact0 Hh0 Hruns];
      try done.
    destruct (runs_holder _ _ _ _ _ _ Hsus Ht0 Hact0 Hruns) as [Hu0 _].
    apply account_frame; [done|]. intros a Ha. simpl.
    apply list_lookup_insert_ne. intros ->.
    apply Hne. rewrite Ht0. simpl. f_equal. by eapply holder_uid.
Qed.

Lemma accounts_isolated_witness :
  account "A" (step (CallAdd "B" "tokB" "") (exec polling_A empty_world))
  = account "A" (exec polling_A empty_world).
Proof.
  apply (accounts_isolated polling_A (CallAdd "B" "tokB" "") "A").
  simpl. discriminate.
Defined.

(** ** Removed accounts *)

Lemma unregistered_step e w a :
  wf_all w → (a < length (heap w))%nat → unregistered a w →
  heap (step e w) !! a = heap w !! a ∧ unregistered a (step e w).
Proof.
  intros Hall Hlt Hun.
  pose proof (wfa_wf _ Hall) as [Hacc Htasks Hreg Hsus].
  assert (∀ u a0, ACCOUNTS w !! u = Some a0 → a0 ≠ a) as Hne
    by (intros u a0 Hu ->; by apply (Hun u)).
  split.
  - destruct e as [u tk dn|u|u tl|u|u|tid0 wk]; simpl.
    + unfold add_account. repeat case_match; simpl; try done.
      by apply lookup_app_l.
    + unfold remove_account.
      destruct (ACCOUNTS w !! u) as [a0|] eqn:Hu; [|done].
      destruct (live_handle u w); simpl; [|done].
      apply list_lookup_alter_ne. eauto.
    + destruct (start_cases u tl w) as [_|a0 t0 _ _ _|a0 tid Hu _ _|a0 Hu _ _];
        simpl; try done.
      * destruct tl; simpl; [|done]. apply list_lookup_alter_ne. eauto.
      * rewrite list_lookup_alter_ne by eauto.
        destruct tl; simpl; [|done]. apply list_lookup_alter_ne. eauto.
    + unfold stop. destruct (ACCOUNTS w !! u) as [a0|] eqn:Hu; [|done].
      simpl. destruct (live_handle _ _); simpl;
        apply list_lookup_alter_ne; eauto.
    + unfold reset_today. destruct (ACCOUNTS w !! u) as [a0|] eqn:Hu; [|done].
      simpl. apply list_lookup_alter_ne; eauto.
    + destruct (resume_cases tid0 wk w)
        as [|t0 Ht0 Hd0 Hc0|t0 Ht0 Hco0 Hc0 Ha0|t0 a0 acc0 seg Ht0 Hact0 Hh0 Hruns];
        try done.
      destruct (runs_holder _ _ _ _ _ _ Hsus Ht0 Hact0 Hruns) as [Hu0 _].
      simpl. apply list_lookup_insert_ne. eauto.
  - intros u1.
    destruct e as [u tk dn|u|u tl|u|u|tid0 wk];
      try (rewrite step_ACCOUNTS_frame by done; apply Hun); simpl.
    + unfold add_account. repeat case_match; simpl; try apply Hun.
      intros [[_ ?]|[_ ?]]%lookup_insert_Some; [lia|by apply (Hun u1)].
    + destruct (ACCOUNTS w !! u) as [a0|] eqn:Hu;
        [|unfold remove_account; rewrite Hu; apply Hun].
      destruct (remove_account_ACCOUNTS u w a0 Hu) as [-> _].
      intros [_ ?]%lookup_delete_Some. by apply (Hun u1).
Qed.

Lemma heap_length_step e w : (length (heap w) ≤ length (heap (step e w)))%nat.
Proof.
  destruct (step_heap_length e w) as [->|(? & ? & ? & _ & _ & -> & _)];
    [done|]. rewrite length_app. lia.
Qed.

Lemma unregistered_exec tr w a :
  wf_all w → (a < length (heap w))%nat → unregistered a w →
  heap (exec tr w) !! a = heap w !! a.
Proof.
  revert w. induction tr as [|e tr IH]; intros w Hall Hlt Hun; simpl; [done|].
  destruct (unregistered_step e w a Hall Hlt Hun) as [Heq Hun'].
  rewrite IH; [done|by apply wf_all_step| |done].
  pose proof (heap_length_step e w). lia.
Qed.

(** X8.  [remove_account] on a registered uid succeeds, forgets the
    account and its handle, and leaves no loop of the uid able to run; from
    then on nothing ever changes the removed account object again, whatever
    happens next (also when the uid is added anew): no loop mutates a
    deleted account. *)
Theorem removed_account_frozen
    (tr tr2 : list Event) (u : string) (a : nat) :
  let w := exec tr empty_world in
  ACCOUNTS w !! u = Some a →
  let w1 := (remove_account u w).2 in
  (remove_account u w).1 = RespOk None
  ∧ account u w1 = None ∧ TASKS w1 !! u = None
  ∧ count_active u w1 = 0%nat
  ∧ heap (exec tr2 w1) !! a = heap w1 !! a.
Proof.
  intros w Ha w1.
  assert (wf_all w) as Hall by apply wf_all_reachable.
  assert (wf_all w1) as Hall1 by apply (wf_all_step (CallRemove u)), Hall.
  destruct (remove_account_ACCOUNTS u w a Ha) as [HA HT]. fold w1 in HA, HT.
  split_and!.
  - unfold remove_account. by rewrite Ha.
  - unfold account. by rewrite HA, lookup_delete_eq.
  - by rewrite HT, lookup_delete_eq.
  - apply count_active_0. intros tid t Ht Hu.
    destruct (active t) eqn:Hact; [|done].
    pose proof (wf_registered _ (wfa_wf _ Hall1) _ _ Ht Hact) as Hr.
    by rewrite Hu, HT, lookup_delete_eq in Hr.
  - apply unregistered_exec; [done| |].
    + destruct (wf_accounts _ (wfa_wf _ Hall) _ _ Ha) as (acc & Hh & _).
      apply lookup_lt_Some in Hh.
      pose proof (heap_length_step (CallRemove u) w). simpl in *.
      fold w1 in H. lia.
    + intros u1 Hu1. rewrite HA in Hu1.
      apply lookup_delete_Some in Hu1 as [Hne Hu1].
      apply Hne. by eapply holder_uid; [apply (wfa_wf _ Hall)|..].
Qed.

Lemma removed_account_frozen_witness :
  heap (exec [Resume 0 (PollReplied (Some 500)); CallAdd "A" "new" "";
              CallStart "A" None; Resume 1 Begin]
          (remove_account "A" (exec polling_A empty_world)).2) !! 0%nat
  = heap (remove_account "A" (exec polling_A empty_world)).2 !! 0%nat.
Proof.
  apply (removed_account_frozen polling_A
           [Resume 0 (PollReplied (Some 500)); CallAdd "A" "new" "";
            CallStart "A" None; Resume 1 Begin] "A" 0).
  vm_compute. reflexivity.
Defined.

(** ** Stopping *)

Lemma cancel_cancel t : cancel (cancel t) = cancel t.
Proof.
  unfold cancel. destruct (done t) eqn:Hd; [by rewrite Hd|].
  unfold done in *. simpl. by rewrite Hd.
Qed.

Lemma alter_fixed {A} (f : A → A) (l : list A) (i : nat) :
  (∀ x, l !! i = Some x → f x = x) → alter f i l = l.
Proof.
  intros Hf. apply list_eq. intros j. rewrite list_lookup_alter.
  case_decide as Hij; [subst j|done].
  destruct (l !! i) as [x|] eqn:Hx; [|done]. simpl. by rewrite Hf.
Qed.

Lemma alter_twice {A} (f : A → A) (l : list A) (i : nat) :
  (∀ x, f (f x) = f x) → alter f i (alter f i l) = alter f i l.
Proof.
  intros Hf. rewrite list_alter_alter_eq.
  apply list_alter_ext; [|done]. intros x _. apply Hf.
Qed.

Lemma live_handle_cancelled u w tid h :
  live_handle u w = Some tid →
  live_handle u (mkWorld h (ACCOUNTS w) (alter cancel tid (pool w)) (TASKS w))
  = Some tid.
Proof.
  intros (t & Hu & Ht & Hd)%live_handle_Some. apply live_handle_Some.
  exists (cancel t). simpl. split_and!; [done| |by rewrite done_cancel].
  by rewrite list_lookup_alter_eq, Ht.
Qed.

Lemma set_running_same b acc : running acc = b → set_running b acc = acc.
Proof. intros <-. by destruct acc. Qed.

(** After [stop] on a uid with a live handle. *)
Lemma stop_live u w a tid :
  ACCOUNTS w !! u = Some a → live_handle u w = Some tid →
  stop u w
  = (RespOk None,
     mkWorld (alter (set_running false) a (heap w)) (ACCOUNTS w)
             (alter cancel tid (pool w)) (TASKS w)).
Proof.
  intros Ha Hl. unfold stop. rewrite Ha, live_handle_mutate, Hl. done.
Qed.

Lemma stop_idle u w a :
  ACCOUNTS w !! u = Some a → live_handle u w = None →
  stop u w = (RespOk None, mutate a (set_running false) w).
Proof.
  intros Ha Hl. unfold stop. rewrite Ha, live_handle_mutate, Hl. done.
Qed.

(** X9.  [stop] is idempotent: a second [stop] answers the same and
    changes nothing more.  On an account that is idle (no handle, or a
    finished one) [stop] succeeds and changes nothing at all. *)
Theorem stop_idempotent (tr : list Event) (u : string) :
  let w := exec tr empty_world in
  stop u (stop u w).2 = stop u w
  ∧ (is_Some (ACCOUNTS w !! u) → idle u w = true →
     stop u w = (RespOk None, w)).
Proof.
  intros w.
  assert (wf_all w) as Hall by apply wf_all_reachable.
  split.
  - destruct (ACCOUNTS w !! u) as [a|] eqn:Ha;
      [|unfold stop; rewrite Ha; simpl; by rewrite Ha].
    destruct (live_handle u w) as [tid|] eqn:Hl.
    + rewrite (stop_live u w a tid Ha Hl). cbn [snd].
      rewrite (stop_live u _ a tid); [|done|by apply live_handle_cancelled].
      cbn [heap pool ACCOUNTS TASKS].
      rewrite (alter_twice (set_running false)) by done.
      by rewrite (alter_twice cancel) by apply cancel_cancel.
    + rewrite (stop_idle u w a Ha Hl). cbn [snd].
      rewrite (stop_idle u _ a); [|done|by rewrite live_handle_mutate].
      unfold mutate, with_heap. cbn [heap pool ACCOUNTS TASKS].
      by rewrite (alter_twice (set_running false)) by done.
  - intros [a Ha] Hidle.
    assert (live_handle u w = None) as Hl.
    { unfold idle in Hidle. by destruct (live_handle u w). }
    rewrite (stop_idle u w a Ha Hl). f_equal.
    unfold mutate, with_heap. rewrite alter_fixed; [by destruct w|].
    intros acc Hh. apply set_running_same.
    destruct (running acc) eqn:Hr; [|done].
    destruct (wfa_running _ Hall _ _ _ Ha Hh Hr) as (tid & t & Ht' & Ht & Hact).
    pose proof (active_live_handle _ _ _
                  (wf_registered _ (wfa_wf _ Hall)) Ht Hact) as Hl'.
    destruct (wf_tasks _ (wfa_wf _ Hall) _ _ Ht') as (t1 & Ht1 & Hu1).
    assert (t1 = t) as -> by congruence. rewrite Hu1 in Hl'. congruence.
Qed.

Lemma stop_idempotent_witness :
  stop "A" demo_A = (RespOk None, demo_A).
Proof.
  apply (stop_idempotent
           (CallAdd "A" "tokA" "" :: CallStart "A" (Some 2) :: demo_cycle 1000)
           "A").
  - exists 0%nat. vm_compute. reflexivity.
  - vm_compute. reflexivity.
Defined.

(** X10.  [stop] on an account whose loop has not finished clears
    [running] and requests the cancellation: from that moment no loop of
    the uid can run, and the next scheduling of the task, whatever it was
    waiting for, ends it without touching any account; after that the
    account is idle again. *)
Theorem stop_ends_loop
    (tr : list Event) (u : string) (tid : nat) (wk : Wake) :
  let w := exec tr empty_world in
  live_handle u w = Some tid →
  let w1 := (stop u w).2 in
  (stop u w).1 = RespOk None
  ∧ (∃ acc, account u w = Some acc
            ∧ account u w1 = Some (set_running false acc))
  ∧ count_active u w1 = 0%nat
  ∧ heap (resume tid wk w1) = heap w1
  ∧ t_coro <$> pool (resume tid wk w1) !! tid = Some Cancelled
  ∧ idle u (resume tid wk w1) = true.
Proof.
  intros w Hl w1.
  assert (wf_all w) as Hall by apply wf_all_reachable.
  assert (wf_all w1) as Hall1 by apply (wf_all_step (CallStop u)), Hall.
  pose proof Hl as (t & Hu & Ht & Hd)%live_handle_Some.
  destruct (wfa_handles_known _ Hall _ _ Hu) as [a Ha].
  destruct (wf_accounts _ (wfa_wf _ Hall) _ _ Ha) as (acc & Hh & _).
  assert (w1 = mkWorld (alter (set_running false) a (heap w)) (ACCOUNTS w)
                       (alter cancel tid (pool w)) (TASKS w)) as Hw1
    by (unfold w1; by rewrite (stop_live u w a tid Ha Hl)).
  assert (pool w1 !! tid = Some (cancel t)) as Ht1.
  { rewrite Hw1. simpl. by rewrite list_lookup_alter_eq, Ht. }
  assert (done (cancel t) = false) as Hd1 by by rewrite done_cancel.
  assert (t_must_cancel (cancel t) = true) as Hc1.
  { unfold cancel. by rewrite Hd. }
  destruct (cancel_delivery tid wk w1 _ Ht1 Hd1 Hc1) as [Hheap Hco].
  split_and!.
  - by rewrite (stop_live u w a tid Ha Hl).
  - exists acc. unfold account. rewrite Hw1. simpl. rewrite Ha.
    split; [done|]. rewrite (alter_lookup_Some _ _ _ _ _ Hh).
    by rewrite decide_True.
  - apply count_active_0. intros tid2 t2 Ht2 Hu2.
    destruct (active t2) eqn:Hact; [|done].
    pose proof (wf_registered _ (wfa_wf _ Hall1) _ _ Ht2 Hact) as Hr.
    rewrite Hu2 in Hr. rewrite Hw1 in Hr. simpl in Hr.
    assert (tid2 = tid) as -> by congruence.
    assert (t2 = cancel t) as -> by congruence.
    by rewrite active_cancel in Hact.
  - exact Hheap.
  - exact Hco.
  - unfold idle.
    destruct (live_handle u (resume tid wk w1)) as [tid3|] eqn:Hl3; [|done].
    apply live_handle_Some in Hl3 as (t3 & Hu3 & Ht3 & Hd3).
    rewrite resume_TASKS in Hu3. rewrite Hw1 in Hu3. simpl in Hu3.
    assert (tid3 = tid) as -> by congruence.
    rewrite Ht3 in Hco. simpl in Hco. injection Hco as Hco.
    unfold done in Hd3. by rewrite Hco in Hd3.
Qed.

Lemma stop_ends_loop_witness :
  idle "A" (resume 0 (PollReplied (Some 100))
              (stop "A" (exec polling_A empty_world)).2) = true.
Proof.
  apply (stop_ends_loop polling_A "A" 0 (PollReplied (Some 100))).
  vm_compute. reflexivity.
Defined.

(** X11.  A [start] that is handled after [stop] but before the event loop
    has delivered the cancellation finds the handle not finished: it
    answers "Already running", spawns nothing and does not set [running].
    When the cancellation is then delivered the account is left idle, with
    [running] clear and no loop: that [start] is lost. *)
Theorem start_before_cancellation_is_lost
    (tr : list Event) (u : string) (tid : nat) (tl : option Z) (wk : Wake) :
  let w := exec tr empty_world in
  live_handle u w = Some tid → target_ok tl →
  let w2 := (start u tl (stop u w).2).2 in
  (start u tl (stop u w).2).1 = RespOk (Some "Already running")
  ∧ pool w2 = pool (stop u w).2
  ∧ idle u (resume tid wk w2) = true
  ∧ count_active u (resume tid wk w2) = 0%nat
  ∧ ∃ acc, account u (resume tid wk w2) = Some acc ∧ running acc = false.
Proof.
  intros w Hl Htl w2.
  assert (wf_all w) as Hall by apply wf_all_reachable.
  set (w1 := (stop u w).2) in *.
  assert (wf_all w1) as Hall1 by apply (wf_all_step (CallStop u)), Hall.
  assert (wf_all w2) as Hall2 by apply (wf_all_step (CallStart u tl)), Hall1.
  assert (wf_all (resume tid wk w2)) as Hall3
    by apply (wf_all_step (Resume tid wk)), Hall2.
  pose proof Hl as (t & Hu & Ht & Hd)%live_handle_Some.
  destruct (wfa_handles_known _ Hall _ _ Hu) as [a Ha].
  destruct (wf_accounts _ (wfa_wf _ Hall) _ _ Ha) as (acc & Hh & _).
  assert (w1 = mkWorld (alter (set_running false) a (heap w)) (ACCOUNTS w)
                       (alter cancel tid (pool w)) (TASKS w)) as Hw1
    by (unfold w1; by rewrite (stop_live u w a tid Ha Hl)).
  assert (live_handle u w1 = Some tid) as Hl1
    by (rewrite Hw1; by apply live_handle_cancelled).
  assert (ACCOUNTS w1 !! u = Some a) as Ha1 by (by rewrite Hw1).
  assert (start u tl w1 = (RespOk (Some "Already running"), retarget a tl w1))
    as Hs by by apply (start_on_live u tl w1 a tid).
  assert (w2 = retarget a tl w1) as Hw2 by (unfold w2; by rewrite Hs).
  assert (pool w2 !! tid = Some (cancel t)) as Ht2.
  { rewrite Hw2, retarget_pool, Hw1. simpl.
    by rewrite list_lookup_alter_eq, Ht. }
  assert (done (cancel t) = false) as Hd1 by by rewrite done_cancel.
  assert (t_must_cancel (cancel t) = true) as Hc1.
  { unfold cancel. by rewrite Hd. }
  destruct (cancel_delivery tid wk w2 _ Ht2 Hd1 Hc1) as [Hheap Hco].
  assert (idle u (resume tid wk w2) = true) as Hidle.
  { unfold idle.
    destruct (live_handle u (resume tid wk w2)) as [tid3|] eqn:Hl3; [|done].
    apply live_handle_Some in Hl3 as (t3 & Hu3 & Ht3 & Hd3).
    rewrite resume_TASKS, Hw2, retarget_TASKS, Hw1 in Hu3. simpl in Hu3.
    assert (tid3 = tid) as -> by congruence.
    rewrite Ht3 in Hco. simpl in Hco. injection Hco as Hco.
    unfold done in Hd3. by rewrite Hco in Hd3. }
  assert (count_active u (resume tid wk w2) = 0%nat) as Hcount.
  { apply idle_no_active; [|done].
    exact (wf_registered _ (wfa_wf _ Hall3)). }
  split_and!; [by rewrite Hs|by rewrite Hw2, retarget_pool|done|done|].
  assert (ACCOUNTS (resume tid wk w2) !! u = Some a) as Ha3
    by (by rewrite resume_ACCOUNTS, Hw2, retarget_ACCOUNTS).
  destruct (wf_accounts _ (wfa_wf _ Hall3) u a Ha3) as (acc3 & Hh3 & _).
  exists acc3. split; [unfold account; by rewrite Ha3|].
  destruct (running acc3) eqn:Hr; [|done].
  destruct (wfa_running _ Hall3 _ _ _ Ha3 Hh3 Hr)
    as (tid4 & t4 & Ht4' & Ht4 & Hact4).
  destruct (wf_tasks _ (wfa_wf _ Hall3) _ _ Ht4') as (t5 & Ht5 & Hu5).
  assert (t5 = t4) as -> by congruence.
  pose proof (count_active_ge_1 u _ tid4 t4 Ht4 Hu5 Hact4). lia.
Qed.

Lemma start_before_cancellation_is_lost_witness :
  idle "A" (resume 0 TimerFired
              (start "A" None (stop "A" (exec polling_A empty_world)).2).2)
  = true.
Proof.
  apply (start_before_cancellation_is_lost polling_A "A" 0 None TimerFired).
  - vm_compute. reflexivity.
  - exact I.
Defined.

(** ** Fields that only move one way *)

Lemma exec_app tr1 tr2 w : exec (tr1 ++ tr2) w = exec tr2 (exec tr1 w).
Proof.
  revert w. induction tr1 as [|e tr1 IH]; intros w; simpl; [done|apply IH].
Qed.

Lemma all_events (tr : list Event) : Forall (λ _, True) tr.
Proof. by apply Forall_forall. Qed.

(** X12.  No operation ever clears [online]: once a loop has set it, it
    stays set through every later request and scheduling, also after
    [stop], after a failed submission and after the target is reached. *)
Theorem online_never_cleared (tr1 tr2 : list Event) (a : nat) (acc : Account) :
  heap (exec tr1 empty_world) !! a = Some acc → online acc = true →
  ∃ acc', heap (exec tr2 (exec tr1 empty_world)) !! a = Some acc'
          ∧ online acc' = true.
Proof.
  intros Ha Hon.
  destruct (fwd_exec (λ x y, online x = true → online y = true) (λ _, True))
    with (tr := tr2) (w := exec tr1 empty_world) (b := a) (acc := acc)
    as (acc' & Ha' & Hon'); simpl; auto using all_events.
  eauto.
Qed.

Lemma online_never_cleared_witness :
  ∃ acc', heap (exec [CallStop "A"; Resume 0 TimerFired]
                  (exec polling_A empty_world)) !! 0%nat = Some acc'
          ∧ online acc' = true.
Proof.
  apply (online_never_cleared polling_A [CallStop "A"; Resume 0 TimerFired] 0
           (mkAccount "A" "tokA" "User A" None true true 1 (Some 2) 0 0 true)).
  - vm_compute. reflexivity.
  - reflexivity.
Defined.

(** X13.  Every target stored in an account is at least 1, and a target,
    once set, can be replaced by [start] but is never removed: a [start]
    without target leaves it in place and nothing else assigns it. *)
Theorem target_level_valid
    (tr1 tr2 : list Event) (a : nat) (acc : Account) (t : Z) :
  heap (exec tr1 empty_world) !! a = Some acc → target_level acc = Some t →
  1 ≤ t
  ∧ ∃ acc' t', heap (exec tr2 (exec tr1 empty_world)) !! a = Some acc'
               ∧ target_level acc' = Some t' ∧ 1 ≤ t'.
Proof.
  intros Ha Ht.
  assert (∀ tr, heap_all (λ x, ∀ t, target_level x = Some t → 1 ≤ t)
                  (exec tr empty_world)) as Hvalid.
  { intros tr.
    apply (heap_all_exec _ (λ _, True)); simpl;
      auto using all_events, heap_all_empty; try done.
    intros t0 acc0 Ht0 _ t1 [= <-]. done. }
  split; [by eapply (Hvalid tr1)|].
  destruct (fwd_exec (λ x y, is_Some (target_level x) → is_Some (target_level y))
              (λ _, True))
    with (tr := tr2) (w := exec tr1 empty_world) (b := a) (acc := acc)
    as (acc' & Ha' & Hset); simpl; auto using all_events.
  destruct Hset as [t' Ht']; [by rewrite Ht|].
  exists acc', t'. split_and!; [done|done|].
  rewrite <- exec_app in Ha'. by eapply (Hvalid (tr1 ++ tr2)).
Qed.

Lemma target_level_valid_witness :
  ∃ acc' t', heap (exec [CallStart "A" None; CallStart "A" (Some 0)]
                     (exec polling_A empty_world)) !! 0%nat = Some acc'
             ∧ target_level acc' = Some t' ∧ 1 ≤ t'.
Proof.
  apply (target_level_valid polling_A
           [CallStart "A" None; CallStart "A" (Some 0)] 0
           (mkAccount "A" "tokA" "User A" None true true 1 (Some 2) 0 0 true) 2).
  - vm_compute. reflexivity.
  - reflexivity.
Defined.

(** X14.  With a gateway that never subtracts score, today's score never
    exceeds the total score of an account. *)
Theorem today_le_total (tr : list Event) (a : nat) (acc : Account) :
  Forall gain_nonneg tr → heap (exec tr empty_world) !! a = Some acc →
  0 ≤ today_xp acc ≤ total_xp acc.
Proof.
  intros Htr Ha.
  apply (heap_all_exec (λ x, 0 ≤ today_xp x ≤ total_xp x) gain_nonneg)
    with (tr := tr) (w := empty_world) (a := a); simpl; try done.
  - intros. lia.
  - intros tid res acc0 Hg ?.
    assert (0 ≤ gained_of res) by (destruct res; simpl; lia). lia.
Qed.

Lemma today_le_total_witness : 0 ≤ 1000 ≤ 1000.
Proof.
  apply (today_le_total
           (CallAdd "A" "tokA" "" :: CallStart "A" (Some 2) :: demo_cycle 1000)
           0
           (mkAccount "A" "tokA" "User A" None true false 2 (Some 2)
              1000 1000 false)).
  - repeat constructor. simpl. lia.
  - vm_compute. reflexivity.
Defined.

(** X15.  The identity of an account never changes: [uid], [token],
    [display_name] and [avatar_url] of every account object stay what they
    were at creation, [avatar_url] is never set, and the account found
    under a uid carries that uid. *)
Theorem identity_immutable (tr1 tr2 : list Event) (a : nat) (acc : Account) :
  heap (exec tr1 empty_world) !! a = Some acc →
  avatar_url acc = None
  ∧ (∀ u, ACCOUNTS (exec tr1 empty_world) !! u = Some a → uid acc = u)
  ∧ ∃ acc', heap (exec tr2 (exec tr1 empty_world)) !! a = Some acc'
            ∧ uid acc' = uid acc ∧ token acc' = token acc
            ∧ display_name acc' = display_name acc
            ∧ avatar_url acc' = avatar_url acc.
Proof.
  intros Ha. split_and!.
  - apply (heap_all_exec (λ x, avatar_url x = None) (λ _, True))
      with (tr := tr1) (w := empty_world) (a := a);
      simpl; auto using all_events; done.
  - intros u Hu.
    destruct (wf_accounts _ (wfa_wf _ (wf_all_reachable tr1)) _ _ Hu)
      as (acc1 & Hh1 & <-). congruence.
  - apply (fwd_exec (λ x y, uid y = uid x ∧ token y = token x
                            ∧ display_name y = display_name x
                            ∧ avatar_url y = avatar_url x) (λ _, True));
      simpl; auto using all_events.
    intros x y z (? & ? & ? & ?) (? & ? & ? & ?). split_and!; congruence.
Qed.

Lemma identity_immutable_witness :
  ∃ acc', heap (exec (demo_cycle 300) (exec polling_C_start empty_world))
            !! 0%nat = Some acc'
          ∧ uid acc' = "C"%string ∧ token acc' = "tokC"%string
          ∧ display_name acc' = "User C"%string ∧ avatar_url acc' = None.
Proof.
  apply (identity_immutable polling_C_start (demo_cycle 300) 0
           (mkAccount "C" "tokC" "User C" None false false 1 None 0 0 true)).
  vm_compute. reflexivity.
Defined.

(** ** The end of a cycle *)

(** What the answer of a poll does to the account and to the task. *)
Lemma poll_reply_step w tid t a acc res :
  pool w !! tid = Some t → active t = true →
  t_coro t = Suspended a AtPollResult → heap w !! a = Some acc →
  heap (resume tid (PollReplied res) w) !! a
  = Some (on_poll_reply res a acc).1
  ∧ pool (resume tid (PollReplied res) w) !! tid
    = Some (set_coro (on_poll_reply res a acc).2 t).
Proof.
  intros Ht Hact Hco Ha.
  rewrite (resume_run tid _ w t a acc (on_poll_reply res a) Ht Hact Ha);
    [|by constructor].
  simpl. split.
  - apply list_lookup_insert_eq. by eapply lookup_lt_Some.
  - by rewrite list_lookup_alter_eq, Ht.
Qed.



(** X17.  A poll that answers [g] while the target is absent or still out
    of reach adds [g] to both [today_xp] and [total_xp], sets the level
    derived from the new total, clears [matchmaking], leaves [running],
    [online] and the target as they are, and the loop pauses before its
    next cycle. *)
Theorem poll_success_credits
    (tr : list Event) (tid a : nat) (t : Task) (acc : Account) (g : Z) :
  let w := exec tr empty_world in
  pool w !! tid = Some t → active t = true →
  t_coro t = Suspended a AtPollResult → heap w !! a = Some acc →
  (∀ tl, target_level acc = Some tl → level_from_xp (total_xp acc + g) < tl) →
  let w' := resume tid (PollReplied (Some g)) w in
  heap w' !! a
  = Some (mkAccount (uid acc) (token acc) (display_name acc) (avatar_url acc)
            (online acc) false (level_from_xp (total_xp acc + g))
            (target_level acc) (today_xp acc + g) (total_xp acc + g) true)
  ∧ pool w' !! tid = Some (set_coro (Suspended a AtYield) t).
Proof.
  intros w Ht Hact Hco Ha Hfar w'.
  destruct (wf_suspended _ (wfa_wf _ (wf_all_reachable tr)) _ _ _ _ Ht Hact Hco)
    as (_ & acc1 & Ha1 & Hrun).
  assert (acc1 = acc) as -> by (unfold w in *; congruence).
  destruct (poll_reply_step w tid t a acc (Some g) Ht Hact Hco Ha) as [Hh Hp].
  fold w' in Hh, Hp.
  assert (on_poll_reply (Some g) a acc
          = (set_matchmaking false (credit g acc), Suspended a AtYield))
    as Hseg.
  { unfold on_poll_reply. simpl.
    destruct (target_level acc) as [tl|] eqn:Htl; [|done].
    specialize (Hfar tl eq_refl).
    by rewrite (proj2 (Z.leb_gt _ _) Hfar). }
  rewrite Hseg in Hh, Hp. simpl in Hh, Hp. rewrite Hh, Hp.
  split; [|done]. unfold set_matchmaking, credit. simpl. by rewrite Hrun.
Qed.

Lemma poll_success_credits_witness :
  heap (resume 0 (PollReplied (Some 120)) polling_C) !! 0%nat
  = Some (mkAccount "C" "tokC" "User C" None true false 1 None 120 120 true).
Proof.
  unfold polling_C.
  apply (poll_success_credits
           [ CallAdd "C" "tokC" ""; CallStart "C" None; Resume 0 Begin;
             Resume 0 (StartReplied true); Resume 0 TimerFired ] 0 0
           (mkTask "C" (Suspended 0 AtPollResult) false)
           (mkAccount "C" "tokC" "User C" None true true 1 None 0 0 true) 120);
    try (vm_compute; reflexivity).
  intros tl. discriminate.
Defined.

(** ** Resetting today's score *)

(** X18.  [reset_today] on a registered uid sets [today_xp] of that
    account to 0 and nothing else: the other fields of the account, every
    task, every handle and the registry are as before, so a running loop
    goes on; doing it twice is the same as doing it once. *)
Theorem reset_today_only_today (tr : list Event) (u : string) (acc : Account) :
  let w := exec tr empty_world in
  account u w = Some acc →
  (reset_today u w).1 = RespOk None
  ∧ account u (reset_today u w).2 = Some (set_today_xp 0 acc)
  ∧ pool (reset_today u w).2 = pool w
  ∧ TASKS (reset_today u w).2 = TASKS w
  ∧ ACCOUNTS (reset_today u w).2 = ACCOUNTS w
  ∧ count_active u (reset_today u w).2 = count_active u w
  ∧ reset_today u (reset_today u w).2 = reset_today u w.
Proof.
  intros w Hacc. unfold account in Hacc.
  destruct (ACCOUNTS w !! u) as [a|] eqn:Ha; [|done].
  assert (reset_today u w = (RespOk None, mutate a (set_today_xp 0) w)) as Hr
    by (unfold reset_today; by rewrite Ha).
  rewrite Hr. cbn [fst snd]. split_and!; try done.
  - unfold account, mutate. simpl. rewrite Ha.
    rewrite (alter_lookup_Some _ _ _ _ _ Hacc). by rewrite decide_True.
  - unfold reset_today. simpl. rewrite Ha. f_equal.
    unfold mutate, with_heap. simpl. f_equal.
    by apply alter_twice.
Qed.

Lemma reset_today_only_today_witness :
  account "A" (reset_today "A" demo_A).2
  = Some (mkAccount "A" "tokA" "User A" None true false 2 (Some 2) 0 1000 false).
Proof.
  apply (reset_today_only_today
           (CallAdd "A" "tokA" "" :: CallStart "A" (Some 2) :: demo_cycle 1000)
           "A"
           (mkAccount "A" "tokA" "User A" None true false 2 (Some 2)
              1000 1000 false)).
  vm_compute. reflexivity.
Defined.

(** ** Listing the accounts *)

Lemma length_omap_total {A B} (f : A → option B) (l : list A) :
  (∀ x, x ∈ l → is_Some (f x)) → length (omap f l) = length l.
Proof.
  induction l as [|x l IH]; intros Hf; [done|]. simpl.
  destruct (Hf x) as [y Hy]; [left|]. rewrite Hy. simpl.
  f_equal. apply IH. intros z Hz. apply Hf. by right.
Qed.

Lemma omap_ext_in {A B} (f g : A → option B) (l : list A) :
  (∀ x, x ∈ l → f x = g x) → omap f l = omap g l.
Proof.
  induction l as [|x l IH]; intros Hfg; [done|]. csimpl.
  rewrite (Hfg x) by left. rewrite IH; [done|].
  intros z Hz. apply Hfg. by right.
Qed.

Lemma elem_of_account_addresses w a :
  a ∈ account_addresses w ↔ ∃ u, ACCOUNTS w !! u = Some a.
Proof.
  unfold account_addresses. rewrite merge_sort_Permutation.
  rewrite list_elem_of_fmap. split.
  - intros ([u a'] & -> & Hin%elem_of_map_to_list). eauto.
  - intros [u Hu]. exists (u, a). split; [done|].
    by apply elem_of_map_to_list.
Qed.

Lemma sorted_snoc_le (l : list nat) (n : nat) :
  Sorted (≤)%nat l → (∀ x, x ∈ l → (x ≤ n)%nat) → Sorted (≤)%nat (l ++ [n]).
Proof.
  intros Hs Hle. apply Sorted_snoc; [done|].
  destruct l as [|y l _] using rev_ind; [constructor|].
  constructor. apply Hle. apply elem_of_app. right. left.
Qed.

(** X19.  [list_accounts] returns exactly the registered accounts, each
    once, with their current state: as many entries as the registry has
    uids (at most 20), an account is listed exactly when some uid leads to
    it, and a newly added account comes last, after the accounts listed
    before, which keep their order. *)
Theorem list_accounts_registry (tr : list Event) :
  let w := exec tr empty_world in
  length (list_accounts w) = size (ACCOUNTS w)
  ∧ (length (list_accounts w) ≤ 20)%nat
  ∧ (∀ acc, acc ∈ list_accounts w ↔ ∃ u, account u w = Some acc)
  ∧ (∀ u tk dn,
       (size (ACCOUNTS w) < 20)%nat → ACCOUNTS w !! u = None →
       list_accounts (add_account u tk dn w).2
       = list_accounts w ++ [new_account u tk dn]).
Proof.
  intros w.
  assert (wf_all w) as Hall by apply wf_all_reachable.
  pose proof (wf_accounts _ (wfa_wf _ Hall)) as Hacc.
  assert (length (list_accounts w) = size (ACCOUNTS w)) as Hlen.
  { unfold list_accounts. rewrite length_omap_total.
    - unfold account_addresses.
      by rewrite merge_sort_Permutation, length_fmap, length_map_to_list.
    - intros a [u Hu]%elem_of_account_addresses.
      destruct (Hacc _ _ Hu) as (acc & -> & _). eauto. }
  split_and!.
  - exact Hlen.
  - rewrite Hlen. apply (size_reachable tr).
  - intros acc. unfold list_accounts. rewrite list_elem_of_omap. split.
    + intros (a & [u Hu]%elem_of_account_addresses & Hh).
      exists u. unfold account. by rewrite Hu.
    + intros [u Hu]. unfold account in Hu.
      destruct (ACCOUNTS w !! u) as [a|] eqn:Ha; [|done].
      exists a. split; [|done]. apply elem_of_account_addresses. eauto.
  - intros u tk dn Hsize Hu.
    rewrite add_account_ok by (done || unfold MAX_ACCOUNTS; lia).
    cbn [snd]. unfold list_accounts.
    assert (account_addresses
              (mkWorld (heap w ++ [new_account u tk dn])
                       (<[u := length (heap w)]> (ACCOUNTS w))
                       (pool w) (TASKS w))
            = account_addresses w ++ [length (heap w)]) as ->.
    { unfold account_addresses. cbn [ACCOUNTS].
      apply (Sorted_unique (≤)%nat).
      - apply Sorted_merge_sort; apply _.
      - apply sorted_snoc_le; [apply Sorted_merge_sort; apply _|].
        intros a [u1 Hu1]%elem_of_account_addresses.
        destruct (Hacc _ _ Hu1) as (acc & Hh%lookup_lt_Some & _). lia.
      - rewrite !merge_sort_Permutation.
        rewrite (map_to_list_insert _ _ _ Hu). simpl.
        by rewrite Permutation_cons_append. }
    rewrite omap_app. cbn [heap]. f_equal.
    + apply omap_ext_in.
      intros a [u1 Hu1]%elem_of_account_addresses.
      destruct (Hacc _ _ Hu1) as (acc & Hh & _).
      rewrite Hh. by apply lookup_app_l_Some.
    + simpl. by rewrite list_lookup_middle.
Qed.

Lemma list_accounts_registry_witness :
  list_accounts (add_account "Z9" "tok" "Zed" (exec polling_A empty_world)).2
  = list_accounts (exec polling_A empty_world)
    ++ [new_account "Z9" "tok" "Zed"].
Proof.
  apply (list_accounts_registry polling_A).
  - vm_compute. lia.
  - vm_compute. reflexivity.
Defined.

(** ** Reaching the target *)

Lemma resume_run_lookup tid wk w t a acc seg :
  pool w !! tid = Some t → active t = true → heap w !! a = Some acc →
  runs w t wk a seg →
  heap (resume tid wk w) !! a = Some (seg acc).1
  ∧ pool (resume tid wk w) !! tid = Some (set_coro (seg acc).2 t).
Proof.
  intros Ht Hact Ha Hruns.
  rewrite (resume_run tid wk w t a acc seg Ht Hact Ha Hruns). simpl. split.
  - apply list_lookup_insert_eq. by eapply lookup_lt_Some.
  - by rewrite list_lookup_alter_eq, Ht.
Qed.

(** A finished task ignores every scheduling. *)
Lemma cycles_done tid gs w t :
  pool w !! tid = Some t → done t = true → exec (cycles tid gs) w = w.
Proof.
  intros Ht Hd. induction gs as [|g gs IH]; [done|].
  simpl. by rewrite !(resume_done tid _ w t Ht Hd).
Qed.

Lemma level_reached_iff x tl :
  0 ≤ x → tl ≤ level_from_xp x ↔ 1000 * (tl - 1) ≤ x ∨ tl ≤ 1.
Proof.
  intros Hx. rewrite level_from_xp_nonneg by done.
  pose proof (Z.mul_div_le x 1000). pose proof (Z.mul_succ_div_gt x 1000).
  assert (0 ≤ x / 1000) by (apply Z.div_pos; lia). split; [|intros [|]]; nia.
Qed.

(** What one cycle does to a loop that waits for the answer of its
    submission: it credits the gain, and then either returns or waits for
    the answer of the next submission. *)
Lemma cycle_step w tid t a acc g :
  pool w !! tid = Some t → active t = true →
  t_coro t = Suspended a AtStartMatch → heap w !! a = Some acc →
  running acc = true →
  let w' := exec (cycle tid g) w in
  let acc1 := set_matchmaking false (credit g acc) in
  if target_met acc1
  then heap w' !! a = Some (after_loop (set_running false acc1))
       ∧ pool w' !! tid = Some (set_coro Returned t)
  else heap w' !! a = Some (set_matchmaking true acc1)
       ∧ pool w' !! tid = Some (set_coro (Suspended a AtStartMatch) t).
Proof.
  intros Ht Hact Hco Ha Hrun. unfold cycle. simpl.
  destruct (resume_run_lookup tid (StartReplied true) w t a acc
              (on_start_reply true a) Ht Hact Ha) as [Ha1 Ht1];
    [by constructor|].
  simpl in Ha1, Ht1. set (w1 := resume tid (StartReplied true) w) in *.
  pose proof (active_set_coro a AtPeriodSleep t Hact) as Hact1.
  destruct (resume_run_lookup tid TimerFired w1 _ a acc
              (on_period_elapsed a) Ht1 Hact1 Ha1) as [Ha2 Ht2];
    [by constructor|].
  simpl in Ha2, Ht2. set (w2 := resume tid TimerFired w1) in *.
  pose proof (active_set_coro a AtPollResult t Hact) as Hact2.
  destruct (resume_run_lookup tid (PollReplied (Some g)) w2 _ a acc
              (on_poll_reply (Some g) a) Ht2 Hact2 Ha2) as [Ha3 Ht3];
    [by constructor|].
  set (w3 := resume tid (PollReplied (Some g)) w2) in *.
  revert Ha3 Ht3. unfold on_poll_reply, target_met. simpl.
  destruct (target_level acc) as [tl|] eqn:Htl;
    [destruct (tl <=? level_from_xp (total_xp acc + g)) eqn:Hmet|];
    simpl; intros Ha3 Ht3.
  - by rewrite (resume_done tid TimerFired w3 _ Ht3).
  - destruct (yield_then_next w3 tid _ a _ Ht3
                (active_set_coro a AtYield t Hact) eq_refl Ha3 Hrun)
      as [Hp Hh]. done.
  - destruct (yield_then_next w3 tid _ a _ Ht3
                (active_set_coro a AtYield t Hact) eq_refl Ha3 Hrun)
      as [Hp Hh]. done.
Qed.

Lemma cycles_reach gs : ∀ w tid t a acc tl,
  pool w !! tid = Some t → active t = true →
  t_coro t = Suspended a AtStartMatch → heap w !! a = Some acc →
  running acc = true → target_level acc = Some tl → 0 ≤ total_xp acc →
  Forall (λ g, XP_MIN ≤ g) gs → gs ≠ [] →
  1000 * (tl - 1) ≤ total_xp acc + XP_MIN * Z.of_nat (length gs) →
  pool (exec (cycles tid gs) w) !! tid = Some (set_coro Returned t)
  ∧ ∃ acc', heap (exec (cycles tid gs) w) !! a = Some acc'
            ∧ running acc' = false ∧ matchmaking acc' = false
            ∧ target_level acc' = Some tl
            ∧ tl ≤ level_from_xp (total_xp acc')
            ∧ current_level acc' = level_from_xp (total_xp acc')
            ∧ total_xp acc + XP_MIN ≤ total_xp acc'.
Proof.
  unfold XP_MIN.
  induction gs as [|g gs IH];
    intros w tid t a acc tl Ht Hact Hco Ha Hrun Htl Hx Hgs Hne Hbound;
    [done|].
  apply Forall_cons in Hgs as [Hg Hgs].
  change (cycles tid (g :: gs)) with (cycle tid g ++ cycles tid gs).
  rewrite exec_app.
  pose proof (cycle_step w tid t a acc g Ht Hact Hco Ha Hrun) as Hc.
  simpl in Hc. unfold target_met in Hc. simpl in Hc. rewrite Htl in Hc.
  set (w' := exec (cycle tid g) w) in *.
  destruct (tl <=? level_from_xp (total_xp acc + g)) eqn:Hmet.
  - destruct Hc as [Ha' Ht'].
    rewrite (cycles_done tid gs w' _ Ht') by done.
    split; [done|]. eexists. split; [exact Ha'|]. simpl.
    apply Z.leb_le in Hmet. split_and!; try done. lia.
  - destruct Hc as [Ha' Ht']. apply Z.leb_gt in Hmet.
    assert (¬ (1000 * (tl - 1) ≤ total_xp acc + g ∨ tl ≤ 1)) as Hfar.
    { rewrite <- level_reached_iff by lia. lia. }
    assert (gs ≠ []) as Hne'.
    { intros ->. cbn [length] in Hbound. lia. }
    destruct (IH w' tid _ a _ tl Ht' (active_set_coro _ _ _ Hact)
                eq_refl Ha') as (Hp & acc' & Hh & Hr & Hm & Htl' & Hlv & Hlo & Htot);
      simpl; try done; try lia.
    { cbn [length] in Hbound. lia. }
    split; [done|]. exists acc'. simpl in Htot. split_and!; try done. lia.
Qed.

(** X20.  A loop with a target returns after boundedly many cycles when
    every poll gains at least [XP_MIN] = 50, as the built-in mock gateway
    does: from the moment it waits for a submission, once it has run
    enough undisturbed cycles for [50] per cycle to reach the first score
    of the target level, at least one, the task has returned with
    [running] clear, the level at or above the target, and the score
    grown by at least 50. *)
Theorem loop_reaches_target
    (tr : list Event) (tid a : nat) (t : Task) (acc : Account)
    (tl : Z) (gs : list Z) :
  let w := exec tr empty_world in
  pool w !! tid = Some t → active t = true →
  t_coro t = Suspended a AtStartMatch → heap w !! a = Some acc →
  target_level acc = Some tl → 0 ≤ total_xp acc →
  Forall (λ g, mock_status_gain g = true) gs → gs ≠ [] →
  1000 * (tl - 1) ≤ total_xp acc + 50 * Z.of_nat (length gs) →
  t_coro <$> pool (exec (cycles tid gs) w) !! tid = Some Returned
  ∧ ∃ acc', heap (exec (cycles tid gs) w) !! a = Some acc'
            ∧ running acc' = false ∧ matchmaking acc' = false
            ∧ tl ≤ current_level acc'
            ∧ total_xp acc + 50 ≤ total_xp acc'.
Proof.
  intros w Ht Hact Hco Ha Htl Hx Hgs Hne Hbound.
  destruct (wf_suspended _ (wfa_wf _ (wf_all_reachable tr)) _ _ _ _ Ht Hact Hco)
    as (_ & acc1 & Ha1 & Hrun).
  assert (acc1 = acc) as -> by (unfold w in *; congruence).
  assert (Forall (λ g, XP_MIN ≤ g) gs) as Hmin.
  { eapply Forall_impl; [exact Hgs|]. intros g Hg. simpl in Hg.
    unfold mock_status_gain in Hg. apply andb_prop in Hg as [Hg _]. lia. }
  destruct (cycles_reach gs w tid t a acc tl Ht Hact Hco Ha Hrun Htl Hx
              Hmin Hne Hbound)
    as (Hp & acc' & Hh & Hr & Hm & _ & Hlv & Hcur & Htot).
  split; [by rewrite Hp|].
  exists acc'. split_and!; try done. by rewrite Hcur.
Qed.

Lemma loop_reaches_target_witness :
  t_coro <$> pool (exec (cycles 0 (replicate 20 50))
                     (exec [CallAdd "A" "tokA" ""; CallStart "A" (Some 2);
                            Resume 0 Begin] empty_world)) !! 0%nat
  = Some Returned.
Proof.
  apply (loop_reaches_target
           [CallAdd "A" "tokA" ""; CallStart "A" (Some 2); Resume 0 Begin]
           0 0 (mkTask "A" (Suspended 0 AtStartMatch) false)
           (mkAccount "A" "tokA" "User A" None true true 1 (Some 2) 0 0 true)
           2 (replicate 20 50)); try (vm_compute; reflexivity).
  - simpl. lia.
  - repeat constructor.
  - discriminate.
  - simpl. lia.
Defined.
